(** * Verification of [server/autolinkplugin/config.go]

    A shallow embedding of the configuration core of the autolink plugin:
    the [Config] record, the change handler [OnConfigurationChange], the
    accessors behind the configuration lock, [SaveLinks], [ToMap], [Sorted]
    and [parsePluginAdminList], followed by the theorems that settle what
    the specification says about them.

    Go strings are byte sequences; they are modelled by [string], whose
    characters are the 256 values of [ascii]. *)

From Stdlib Require Import NArith ZArith Ascii String.
From stdpp Require Import gmap strings list fin_maps.

#[local] Set Warnings "-clear-no-such-hyp".

Local Open Scope string_scope.

(** ** The parts of Go's [unicode/utf8] and [strings] packages that the
       program calls *)

Module GoStrings.

Definition byte_val (c : ascii) : N := N_of_ascii c.

(** [s[i:]] *)
Fixpoint drop_bytes (n : nat) (s : string) : string :=
  match n, s with
  | O, _ => s
  | S _, EmptyString => EmptyString
  | S n', String _ t => drop_bytes n' t
  end.

(** [s[:i]] *)
Definition take_bytes (n : nat) (s : string) : string := String.substring 0 n s.

Definition of_bytes (l : list nat) : string :=
  fold_right (fun n acc => String (ascii_of_nat n) acc) EmptyString l.

(** *** [utf8.DecodeRuneInString] *)

Definition RuneError : N := 65533.   (* U+FFFD *)
Definition RuneSelf : N := 128.
Definition UTFMax : nat := 4.

(** The table [first] of package utf8 together with [acceptRanges]: for a
    lead byte, the length of the sequence and the range allowed for the
    second byte; [None] is the entry [xx] (not a lead byte). *)
Definition first (s0 : N) : option (nat * N * N) :=
  if (s0 <? 194)%N then None                                   (* 0x80..0xC1 *)
  else if (s0 <=? 223)%N then Some (2%nat, 128%N, 191%N)   (* 0xC2..0xDF *)
  else if (s0 =? 224)%N then Some (3%nat, 160%N, 191%N)    (* 0xE0 *)
  else if (s0 <=? 236)%N then Some (3%nat, 128%N, 191%N)   (* 0xE1..0xEC *)
  else if (s0 =? 237)%N then Some (3%nat, 128%N, 159%N)    (* 0xED *)
  else if (s0 <=? 239)%N then Some (3%nat, 128%N, 191%N)   (* 0xEE..0xEF *)
  else if (s0 =? 240)%N then Some (4%nat, 144%N, 191%N)    (* 0xF0 *)
  else if (s0 <=? 243)%N then Some (4%nat, 128%N, 191%N)   (* 0xF1..0xF3 *)
  else if (s0 =? 244)%N then Some (4%nat, 128%N, 143%N)    (* 0xF4 *)
  else None.                                                   (* 0xF5..0xFF *)

Definition cont_ok (b : N) : bool := ((128 <=? b) && (b <=? 191))%N.

Definition DecodeRuneInString (s : string) : N * nat :=
  match s with
  | EmptyString => (RuneError, 0)
  | String c0 t0 =>
    let s0 := byte_val c0 in
    if (s0 <? RuneSelf)%N then (s0, 1) else
    match first s0 with
    | None => (RuneError, 1)
    | Some (sz, lo, hi) =>
      if (String.length s <? sz)%nat then (RuneError, 1) else
      match t0 with
      | EmptyString => (RuneError, 1)
      | String c1 t1 =>
        let s1 := byte_val c1 in
        if ((s1 <? lo) || (hi <? s1))%N then (RuneError, 1) else
        if (sz <=? 2)%nat then
          (N.lor (N.shiftl (N.land s0 31) 6) (N.land s1 63), 2)
        else
        match t1 with
        | EmptyString => (RuneError, 1)
        | String c2 t2 =>
          let s2 := byte_val c2 in
          if negb (cont_ok s2) then (RuneError, 1) else
          if (sz <=? 3)%nat then
            (N.lor (N.lor (N.shiftl (N.land s0 15) 12)
                          (N.shiftl (N.land s1 63) 6)) (N.land s2 63), 3)
          else
          match t2 with
          | EmptyString => (RuneError, 1)
          | String c3 _ =>
            let s3 := byte_val c3 in
            if negb (cont_ok s3) then (RuneError, 1) else
            (N.lor (N.lor (N.lor (N.shiftl (N.land s0 7) 18)
                                 (N.shiftl (N.land s1 63) 12))
                          (N.shiftl (N.land s2 63) 6)) (N.land s3 63), 4)
          end
        end
      end
    end
  end.

(** [utf8.RuneStart]: the byte is not a continuation byte. *)
Definition RuneStart (b : N) : bool := negb (N.land b 192 =? 128)%N.

Definition byte_at (s : string) (i : nat) : N :=
  match String.get i s with Some c => byte_val c | None => 0%N end.

(** The backward scan of [utf8.DecodeLastRuneInString]:
    [for start--; start >= lim; start-- { if RuneStart(s[start]) break }],
    entered with [start = end - 2]; the result is the [start] the loop
    leaves, as an integer (it is [lim - 1] when no lead byte is found). *)
Fixpoint scan_back (s : string) (steps : nat) (start : Z) (lim : Z) : Z :=
  match steps with
  | O => start
  | S k =>
    if (start <? lim)%Z then start
    else if RuneStart (byte_at s (Z.to_nat start)) then start
    else scan_back s k (start - 1)%Z lim
  end.

Definition DecodeLastRuneInString (s : string) : N * nat :=
  let e := String.length s in
  if (e =? 0)%nat then (RuneError, 0) else
  let r := byte_at s (e - 1) in
  if (r <? RuneSelf)%N then (r, 1) else
  let lim := Z.max 0 (Z.of_nat e - Z.of_nat UTFMax) in
  let start := Z.max 0 (scan_back s UTFMax (Z.of_nat e - 2) lim) in
  let '(r', size) := DecodeRuneInString (drop_bytes (Z.to_nat start) s) in
  if (Z.to_nat start + size =? e)%nat then (r', size) else (RuneError, 1).

(** *** [unicode.IsSpace] *)
Definition IsSpace (r : N) : bool :=
  if (r <=? 255)%N then
    (* Latin-1: '\t', '\n', '\v', '\f', '\r', ' ', U+0085 (NEL), U+00A0 (NBSP) *)
    (((9 <=? r) && (r <=? 13)) || (r =? 32) || (r =? 133) || (r =? 160))%N
  else
    (* the White_Space range table *)
    ((r =? 5760) || ((8192 <=? r) && (r <=? 8202)) || (r =? 8232) || (r =? 8233)
     || (r =? 8239) || (r =? 8287) || (r =? 12288))%N.

(** The table [asciiSpace] of package strings. *)
Definition asciiSpace (b : N) : bool :=
  (((9 <=? b) && (b <=? 13)) || (b =? 32))%N.

(** *** [strings.TrimLeftFunc], [strings.TrimRightFunc], [strings.TrimFunc]
    with [unicode.IsSpace] *)

(** [indexFunc(s, IsSpace, false)] followed by [s[i:]]: [fuel] bounds the
    number of runes. *)
Fixpoint TrimLeftSpace (fuel : nat) (s : string) : string :=
  match fuel with
  | O => s
  | S k =>
    match s with
    | EmptyString => EmptyString
    | _ =>
      let '(r, wid) := DecodeRuneInString s in
      if IsSpace r then TrimLeftSpace k (drop_bytes wid s) else s
    end
  end.

(** [lastIndexFunc(s, IsSpace, false)] followed by the re-slicing of
    [TrimRightFunc]: the bytes up to and including the last rune that is
    not a space. *)
Fixpoint TrimRightSpace (fuel : nat) (s : string) : string :=
  match fuel with
  | O => s
  | S k =>
    match s with
    | EmptyString => EmptyString
    | _ =>
      let '(r, size) := DecodeLastRuneInString s in
      if IsSpace r then TrimRightSpace k (take_bytes (String.length s - size) s)
      else s
    end
  end.

Definition TrimFuncSpace (s : string) : string :=
  let l := TrimLeftSpace (String.length s) s in
  TrimRightSpace (String.length l) l.

(** *** [strings.TrimSpace]: the ASCII scan from both ends, falling back
    to the rune-wise functions at the first byte [>= RuneSelf]. *)

Fixpoint trim_ascii_end (fuel : nat) (s : string) : string :=
  match fuel with
  | O => s
  | S k =>
    let n := String.length s in
    if (n =? 0)%nat then s else
    let c := byte_at s (n - 1) in
    if (RuneSelf <=? c)%N then TrimRightSpace n s
    else if asciiSpace c then trim_ascii_end k (take_bytes (n - 1) s)
    else s
  end.

Fixpoint TrimSpace_from (s : string) : string :=
  match s with
  | EmptyString => EmptyString
  | String c t =>
    if (RuneSelf <=? byte_val c)%N then TrimFuncSpace s
    else if asciiSpace (byte_val c) then TrimSpace_from t
    else trim_ascii_end (String.length s) s
  end.

Definition TrimSpace (s : string) : string := TrimSpace_from s.

(** *** [strings.Index], [strings.Count] and [strings.Split] for a
    non-empty separator *)

Definition Index (s sep : string) : option nat := String.index 0 sep s.

Fixpoint Count_loop (fuel : nat) (s sep : string) : nat :=
  match fuel with
  | O => 0
  | S k =>
    match Index s sep with
    | None => 0
    | Some i => S (Count_loop k (drop_bytes (i + String.length sep) s) sep)
    end
  end.

Definition Count (s sep : string) : nat := Count_loop (String.length s) s sep.

(** The loop of [genSplit]: [n] pieces are still to be cut off. *)
Fixpoint genSplit_loop (n : nat) (s sep : string) : list string :=
  match n with
  | O => [s]
  | S k =>
    match Index s sep with
    | None => [s]
    | Some m => take_bytes m s :: genSplit_loop k (drop_bytes (m + String.length sep) s) sep
    end
  end.

(** [strings.Split(s, sep)], i.e. [genSplit(s, sep, 0, -1)], for [sep]
    non-empty: [n = Count(s, sep) + 1] pieces. *)
Definition Split (s sep : string) : list string :=
  genSplit_loop (Count s sep) s sep.

(** [strings.Compare(a, b) < 0]: byte-wise lexicographic order. *)
Definition Compare_lt (a b : string) : bool :=
  match String.compare a b with Lt => true | _ => false end.

(** *** What [encoding/json] does to a string value

    The encoder writes every byte at which [DecodeRuneInString] reports
    [(RuneError, 1)] as the escape of U+FFFD and copies every other rune
    (escaped or not); the decoder undoes the escapes. The composition
    replaces each invalid byte by the three bytes EF BF BD. *)
Definition replacement : string := of_bytes [239; 191; 189].

Fixpoint coerce_loop (fuel : nat) (s : string) : string :=
  match fuel with
  | O => EmptyString
  | S k =>
    match s with
    | EmptyString => EmptyString
    | String c t =>
      if (byte_val c <? RuneSelf)%N then String c (coerce_loop k t)
      else
        let '(r, size) := DecodeRuneInString s in
        if (r =? RuneError)%N && (size =? 1)%nat then replacement ++ coerce_loop k t
        else take_bytes size s ++ coerce_loop k (drop_bytes size s)
    end
  end.

Definition json_string (s : string) : string := coerce_loop (String.length s) s.

(** A string that the JSON round trip leaves alone. *)
Definition ValidUTF8 (s : string) : Prop := json_string s = s.

End GoStrings.

Import GoStrings.

(** ** Errors ([error], [*model.AppError], [errors.Wrap]) *)

Inductive error : Type :=
| NewError (text : string)
| Wrap (cause : error) (message : string).

(** [err.Error()]: a wrapped error prints its message, a colon and its cause. *)
Fixpoint ErrorText (e : error) : string :=
  match e with
  | NewError t => t
  | Wrap c m => m ++ ": " ++ ErrorText c
  end.

Inductive result (A : Type) : Type :=
| Ok (a : A)
| Err (e : error).
Arguments Ok {A} a.
Arguments Err {A} e.

(** ** Slices: a nil slice and an empty slice are different values *)

Inductive slice (A : Type) : Type :=
| nil_slice
| mk_slice (l : list A).
Arguments nil_slice {A}.
Arguments mk_slice {A} l.

Definition elems {A} (s : slice A) : list A :=
  match s with nil_slice => [] | mk_slice l => l end.

Definition len {A} (s : slice A) : nat := length (elems s).

(** [append([]T{}, s...)]: a slice with storage of its own holding the
    elements of [s]; it is the empty literal itself, not nil, when [s] has
    no element. *)
Definition append_to_empty {A} (s : slice A) : slice A := mk_slice (elems s).

(** ** JSON documents, and the tree [map[string]interface{}] that the
       generic decoder builds from one *)

#[local] Unset Elimination Schemes.
Inductive json : Type :=
| JNull
| JBool (b : bool)
| JString (s : string)
| JArray (l : list json)
| JObject (m : gmap string json).
#[local] Set Elimination Schemes.

(** ** The rule type of package [autolink]

    [autolink.Autolink] is declared outside this file. The program uses its
    methods [Compile] (pointer receiver: it returns the rule as [Compile]
    leaves it, and the error) and [DisplayName], and its JSON form. *)

Class LinkOps : Type := {
  Autolink : Type;
  Compile : Autolink -> Autolink * option error;
  DisplayName : Autolink -> string;
  (** what [json.Marshal] writes for a rule, as the generic decoder reads it back *)
  MarshalLink : Autolink -> result json;
  (** [json.Unmarshal] of a rule object into a zero [Autolink] *)
  UnmarshalLink : json -> option Autolink
}.

(** ** [model.Command] and [model.AutocompleteData] *)

Module model.

Record AutocompleteListItem : Type := {
  Item : string;
  ItemHint : string;
  ItemHelpText : string
}.

Inductive AutocompleteArg : Type :=
| TextArgument (helpText hint pattern : string)
| StaticListArgument (helpText : string) (required : bool) (items : list AutocompleteListItem).

#[local] Unset Elimination Schemes.
Inductive AutocompleteData : Type :=
| NewAutocompleteData (trigger hint helpText : string)
    (arguments : list AutocompleteArg) (subCommands : list AutocompleteData).
#[local] Set Elimination Schemes.

Definition AddArgument (d : AutocompleteData) (a : AutocompleteArg) : AutocompleteData :=
  match d with
  | NewAutocompleteData t h ht args subs => NewAutocompleteData t h ht (args ++ [a]) subs
  end.

Definition AddCommand (d sub : AutocompleteData) : AutocompleteData :=
  match d with
  | NewAutocompleteData t h ht args subs => NewAutocompleteData t h ht args (subs ++ [sub])
  end.

Record Command : Type := {
  Trigger : string;
  DisplayName : string;
  Description : string;
  AutoComplete : bool;
  AutoCompleteDesc : string;
  AutoCompleteHint : string;
  AutocompleteData_ : AutocompleteData
}.

End model.

Definition getAutoCompleteData : model.AutocompleteData :=
  let new t h ht := model.NewAutocompleteData t h ht [] [] in
  let item i h ht := {| model.Item := i; model.ItemHint := h; model.ItemHelpText := ht |} in
  let autolink := new "autolink" "[command]"
    "Available command : add, delete, disable, enable, list, set, test" in
  let add := new "add" EmptyString "Add a new link with a given name" in
  let add := model.AddArgument add (model.TextArgument "Name for a new link" "[name]" EmptyString) in
  let autolink := model.AddCommand autolink add in
  let delete := new "delete" EmptyString "Delete a link with a given name" in
  let delete := model.AddArgument delete (model.TextArgument "Name of the link to delete" "[name]" EmptyString) in
  let autolink := model.AddCommand autolink delete in
  let disable := new "disable" EmptyString "Disable a link with a given name" in
  let disable := model.AddArgument disable (model.TextArgument "Name of the link to disable" "[name]" EmptyString) in
  let autolink := model.AddCommand autolink disable in
  let enable := new "enable" EmptyString "Enable a link with a given name" in
  let enable := model.AddArgument enable (model.TextArgument "Name of the link to enable" "[name]" EmptyString) in
  let autolink := model.AddCommand autolink enable in
  let list := new "list" EmptyString "List all configured links" in
  let list := model.AddArgument list
    (model.StaticListArgument "List the link which match with the given condition" false
       [ item "[name]" "(optional)"
           "If `name` of a link is provided, it will only list a configuration of `name` link ";
         item "Template" "(optional)" "List configuration of link matched with the given template";
         item "Pattern" "(optional)" "List configuration of link matched with the given pattern" ]) in
  let autolink := model.AddCommand autolink list in
  let set := new "set" EmptyString "Set a field of a link with a given value" in
  let set := model.AddArgument set (model.TextArgument "Name of a link to set" "[name]" EmptyString) in
  let set := model.AddArgument set
    (model.StaticListArgument "A name of a field to set a value" false
       [ item "Template" EmptyString "Set the `Template` field";
         item "Pattern" EmptyString "Set the `Pattern` field";
         item "WordMatch" EmptyString "If true uses the \b word boundaries";
         item "ProcessBotPosts" EmptyString "If true applies changes to posts created by bot accounts.";
         item "Scope" EmptyString "team/channel the autolink applies to" ]) in
  let autolink := model.AddCommand autolink set in
  let test := new "test" EmptyString "Test a link on the text provided" in
  let test := model.AddArgument test (model.TextArgument "Name of a link to test with" "[name]" EmptyString) in
  let test := model.AddArgument test
    (model.TextArgument "Sample text which the link applies" "[sample text]" EmptyString) in
  let autolink := model.AddCommand autolink test in
  let help := new "help" EmptyString "Autolink plugin slash command help" in
  model.AddCommand autolink help.

(** The command that [OnConfigurationChange] registers. *)
Definition autolinkCommand : model.Command :=
  {| model.Trigger := "autolink";
     model.DisplayName := "Autolink";
     model.Description := "Autolink administration.";
     model.AutoComplete := true;
     model.AutoCompleteDesc := "Available commands: add, delete, disable, enable, list, set, test";
     model.AutoCompleteHint := "[command]";
     model.AutocompleteData_ := getAutoCompleteData |}.

(** ** The configuration record and its JSON form *)

Section Configuration.
Context {ops : LinkOps}.

(** [type Config struct]. A nil map and an empty map both read as the
    empty set; the field [AdminUserIds] is never written to a nil map
    ([parsePluginAdminList] always [make]s it first). *)
Record Config : Type := {
  EnableAdminCommand : bool;
  EnableOnUpdate : bool;
  PluginAdmins : string;
  Links : slice Autolink;
  AdminUserIds : gset string
}.

(** [var c Config] *)
Definition zeroConfig : Config :=
  {| EnableAdminCommand := false; EnableOnUpdate := false; PluginAdmins := EmptyString;
     Links := nil_slice; AdminUserIds := ∅ |}.

(** [conf.Links = links] *)
Definition set_Links (c : Config) (links : slice Autolink) : Config :=
  {| EnableAdminCommand := EnableAdminCommand c; EnableOnUpdate := EnableOnUpdate c;
     PluginAdmins := PluginAdmins c; Links := links; AdminUserIds := AdminUserIds c |}.

(** [conf.AdminUserIds = ids] *)
Definition set_AdminUserIds (c : Config) (ids : gset string) : Config :=
  {| EnableAdminCommand := EnableAdminCommand c; EnableOnUpdate := EnableOnUpdate c;
     PluginAdmins := PluginAdmins c; Links := Links c; AdminUserIds := ids |}.

(** *** [json.Marshal(conf)]

    The encoded bytes are represented by the document they spell. The
    struct tags name the keys; the tag ["-"] leaves [AdminUserIds] out.
    A nil slice is written as [null], any other slice as an array; the
    first rule that fails to encode fails the whole call. *)
Fixpoint marshal_links (ls : list Autolink) : result (list json) :=
  match ls with
  | [] => Ok []
  | l :: rest =>
    match MarshalLink l with
    | Err e => Err e
    | Ok j =>
      match marshal_links rest with
      | Err e => Err e
      | Ok js => Ok (j :: js)
      end
    end
  end.

Definition marshal_slice (s : slice Autolink) : result json :=
  match s with
  | nil_slice => Ok JNull
  | mk_slice l =>
    match marshal_links l with
    | Err e => Err e
    | Ok js => Ok (JArray js)
    end
  end.

Definition Marshal (conf : Config) : result json :=
  match marshal_slice (Links conf) with
  | Err e => Err e
  | Ok jl =>
    Ok (JObject
          (<["enableadmincommand" := JBool (EnableAdminCommand conf)]>
           (<["enableonupdate" := JBool (EnableOnUpdate conf)]>
            (<["pluginadmins" := JString (json_string (PluginAdmins conf))]>
             (<["links" := jl]> ∅)))))
  end.

(** [json.Unmarshal(data, &out)] with [out] a nil [map[string]interface{}]:
    an object gives its map, [null] leaves the map nil, anything else is
    an error. *)
Definition UnmarshalMap (data : json) : result (gmap string json) :=
  match data with
  | JObject m => Ok m
  | JNull => Ok ∅
  | _ => Err (NewError "json: cannot unmarshal into Go value of type map[string]interface {}")
  end.

(** [func (conf *Config) ToMap() (map[string]interface{}, error)], on the
    value that [conf] points to. *)
Definition ToMap (conf : Config) : result (gmap string json) :=
  match Marshal conf with
  | Err e => Err e
  | Ok data =>
    match UnmarshalMap data with
    | Err e => Err e
    | Ok out => Ok out
    end
  end.

(** *** The structured reload

    What the host's [LoadPluginConfiguration] does with a stored map: it
    is encoded again and decoded into a zero [Config] with
    [json.Unmarshal]. A key that is missing or [null] leaves its field at
    the zero value, a value of the wrong kind is an error, and no key
    reaches [AdminUserIds]. Keys are looked up as the tags spell them. *)
Definition reload_bool (o : option json) : option bool :=
  match o with
  | None | Some JNull => Some false
  | Some (JBool b) => Some b
  | _ => None
  end.

Definition reload_string (o : option json) : option string :=
  match o with
  | None | Some JNull => Some EmptyString
  | Some (JString s) => Some (json_string s)
  | _ => None
  end.

Fixpoint reload_links (js : list json) : option (list Autolink) :=
  match js with
  | [] => Some []
  | j :: rest =>
    match UnmarshalLink j, reload_links rest with
    | Some l, Some ls => Some (l :: ls)
    | _, _ => None
    end
  end.

Definition reload_slice (o : option json) : option (slice Autolink) :=
  match o with
  | None | Some JNull => Some nil_slice
  | Some (JArray js) =>
    match reload_links js with
    | Some ls => Some (mk_slice ls)
    | None => None
    end
  | _ => None
  end.

Definition Reload (m : gmap string json) : option Config :=
  match reload_bool (m !! "enableadmincommand"), reload_bool (m !! "enableonupdate"),
        reload_string (m !! "pluginadmins"), reload_slice (m !! "links") with
  | Some a, Some u, Some p, Some l =>
    Some {| EnableAdminCommand := a; EnableOnUpdate := u; PluginAdmins := p;
            Links := l; AdminUserIds := ∅ |}
  | _, _, _, _ => None
  end.

End Configuration.

(** ** [sort.Slice]

    The standard library promises a permutation ordered by [less] and no
    more (the sort is not stable, and the algorithm has changed between
    releases), so it is a parameter. On a slice of fewer than seven
    elements every release runs the insertion sort below. *)

Class Sorter : Type :=
  sort_Slice : forall {A : Type}, (A -> A -> bool) -> list A -> list A.

(** [for j := i; j > a && less(j, j-1); j-- { swap(j, j-1) }] on the
    already ordered prefix, held last element first. *)
Fixpoint sift_down {A} (less : A -> A -> bool) (x : A) (rprefix : list A) : list A :=
  match rprefix with
  | [] => [x]
  | y :: rest => if less x y then y :: sift_down less x rest else x :: rprefix
  end.

Definition insertionSort {A} (less : A -> A -> bool) (l : list A) : list A :=
  rev (fold_left (fun rprefix x => sift_down less x rprefix) l []).

(** ** The plugin, the host behind [plugin.API], and the world they run in *)

Abbreviation ptr := nat (only parsing).

Section Plugin.
Context {ops : LinkOps}.

(** A value passed to [LogError] or [LogWarn] among the key/value pairs. *)
Inductive LogVal : Type :=
| LogString (s : string)
| LogLink (l : Autolink)
| LogErr (e : error).

(** The interface [plugin.API], as far as this file calls it. The host
    has a state of its own, which every call may read and change. *)
Class PluginAPI : Type := {
  Host : Type;
  LoadPluginConfiguration : Host -> result Config * Host;
  GetUser : string -> Host -> option error * Host;
  LogError : string -> list LogVal -> Host -> Host;
  LogWarn : string -> list LogVal -> Host -> Host;
  RegisterCommand : model.Command -> Host -> option error * Host;
  UnregisterCommand : string -> string -> Host -> option error * Host;
  SavePluginConfig : gmap string json -> Host -> option error * Host
}.

Context {api : PluginAPI}.

(** Every call made through [p.API], with what it returned. *)
Inductive Event : Type :=
| EvLoadPluginConfiguration (r : result Config)
| EvGetUser (userID : string) (appErr : option error)
| EvLogError (msg : string) (keyValuePairs : list LogVal)
| EvLogWarn (msg : string) (keyValuePairs : list LogVal)
| EvRegisterCommand (c : model.Command) (err : option error)
| EvUnregisterCommand (teamID trigger : string) (err : option error)
| EvSavePluginConfig (config : gmap string json) (appErr : option error).

(** [heap] holds the [Config] cells that pointers refer to (a pointer the
    heap does not map is nil or dangling); [goroutines] holds the variable
    [c] captured by each [go func()] that has been started and has not
    run yet. *)
Record World : Type := {
  heap : gmap ptr Config;
  host : Host;
  trace : list Event;
  goroutines : list Config
}.

(** [type Plugin struct]: the field [conf *Config]. The field [confLock]
    has no state between two calls of a sequential run. *)
Record Plugin : Type := { conf : ptr }.

(** A computation reads and changes the world; [None] is a panic. *)
Definition M (A : Type) : Type := World -> option (A * World).

Definition ret {A} (a : A) : M A := fun w => Some (a, w).

Definition bind {A B} (m : M A) (k : A -> M B) : M B :=
  fun w => match m w with
           | Some (a, w') => k a w'
           | None => None
           end.

Notation "x <- m ;; k" := (bind m (fun x => k))
  (at level 100, m at next level, right associativity).
Notation "m ;; k" := (bind m (fun _ => k))
  (at level 100, right associativity).

(** [*p] *)
Definition deref (p : ptr) : M Config :=
  fun w => match heap w !! p with
           | Some c => Some (c, w)
           | None => None
           end.

(** [*p = c] *)
Definition assign (p : ptr) (c : Config) : M unit :=
  fun w => match heap w !! p with
           | Some _ => Some (tt, {| heap := <[p := c]> (heap w); host := host w;
                                    trace := trace w; goroutines := goroutines w |})
           | None => None
           end.

(** A call through [p.API] that returns a value. *)
Definition call {A} (f : Host -> A * Host) (ev : A -> Event) : M A :=
  fun w => let '(a, h) := f (host w) in
           Some (a, {| heap := heap w; host := h;
                       trace := trace w ++ [ev a]; goroutines := goroutines w |}).

(** A call through [p.API] that returns nothing. *)
Definition call_ (f : Host -> Host) (ev : Event) : M unit :=
  fun w => Some (tt, {| heap := heap w; host := f (host w);
                        trace := trace w ++ [ev]; goroutines := goroutines w |}).

(** [go func() { ... }()] with the captured [c] *)
Definition go (c : Config) : M unit :=
  fun w => Some (tt, {| heap := heap w; host := host w;
                        trace := trace w; goroutines := goroutines w ++ [c] |}).

(** *** [func (conf *Config) parsePluginAdminList(api plugin.API)]

    The receiver is the local variable [c] of [OnConfigurationChange];
    it is passed and returned by value. *)
Fixpoint verifyUserIDs (userIDs : list string) (ids : gset string) : M (gset string) :=
  match userIDs with
  | [] => ret ids
  | userID :: rest =>
    let userID := TrimSpace userID in
    appErr <- call (GetUser userID) (EvGetUser userID) ;;
    match appErr with
    | Some e =>
      let kv := [LogString "userID"; LogString userID; LogString "error"; LogErr e] in
      call_ (LogWarn "Error occurred while verifying userID" kv)
            (EvLogWarn "Error occurred while verifying userID" kv) ;;
      verifyUserIDs rest ids
    | None => verifyUserIDs rest ({[userID]} ∪ ids)
    end
  end.

Definition parsePluginAdminList (conf : Config) : M Config :=
  let conf := set_AdminUserIds conf ∅ in
  if (String.length (PluginAdmins conf) =? 0)%nat then ret conf
  else
    ids <- verifyUserIDs (Split (PluginAdmins conf) ",") (AdminUserIds conf) ;;
    ret (set_AdminUserIds conf ids).

(** *** The accessors *)

(** [func (p *Plugin) getConfig() *Config] *)
Definition getConfig (p : Plugin) : M ptr := ret (conf p).

(** [func (p *Plugin) GetLinks() []autolink.Autolink] *)
Definition GetLinks (p : Plugin) : M (slice Autolink) :=
  c <- deref (conf p) ;; ret (Links c).

(** [func (p *Plugin) UpdateConfig(f func(conf *Config))]: [f] is given
    by what it makes of the value that [p.conf] points to. *)
Definition UpdateConfig (p : Plugin) (f : Config -> Config) : M unit :=
  c <- deref (conf p) ;; assign (conf p) (f c).

(** *** [func (p *Plugin) OnConfigurationChange() error] *)

(** [for i := range c.Links { if err := c.Links[i].Compile(); err != nil { LogError } }] *)
Fixpoint compileLinks (ls : list Autolink) : M (list Autolink) :=
  match ls with
  | [] => ret []
  | l :: rest =>
    let '(l', err) := Compile l in
    match err with
    | Some e =>
      let kv := [LogString "link"; LogLink l'; LogString "error"; LogString (ErrorText e)] in
      call_ (LogError "Error creating autolinker" kv)
            (EvLogError "Error creating autolinker" kv)
    | None => ret tt
    end ;;
    rest' <- compileLinks rest ;;
    ret (l' :: rest')
  end.

Definition compileSlice (s : slice Autolink) : M (slice Autolink) :=
  match s with
  | nil_slice => ret nil_slice
  | mk_slice l => l' <- compileLinks l ;; ret (mk_slice l')
  end.

(** The body of the goroutine; both results are dropped ([_ = ...]). *)
Definition registration (c : Config) : M unit :=
  if EnableAdminCommand c then
    call (RegisterCommand autolinkCommand) (EvRegisterCommand autolinkCommand) ;; ret tt
  else
    call (UnregisterCommand EmptyString "autolink") (EvUnregisterCommand EmptyString "autolink") ;; ret tt.

Definition OnConfigurationChange (p : Plugin) : M (option error) :=
  r <- call LoadPluginConfiguration EvLoadPluginConfiguration ;;
  match r with
  | Err err => ret (Some (Wrap err "failed to load plugin configuration"))
  | Ok c =>
    links <- compileSlice (Links c) ;;
    c <- parsePluginAdminList (set_Links c links) ;;
    UpdateConfig p (fun _ => c) ;;
    go c ;;
    ret None
  end.

(** Running the goroutines that have been started, oldest first. *)
Fixpoint run_all (cs : list Config) : M unit :=
  match cs with
  | [] => ret tt
  | c :: rest => registration c ;; run_all rest
  end.

Definition run_goroutines : M unit :=
  fun w => run_all (goroutines w)
             {| heap := heap w; host := host w; trace := trace w; goroutines := [] |}.

(** *** [func (p *Plugin) SaveLinks(links []autolink.Autolink) error] *)

(** The statements after the call of [UpdateConfig]. *)
Definition persist (p : Plugin) : M (option error) :=
  cp <- getConfig p ;;
  c <- deref cp ;;
  match ToMap c with
  | Err err => ret (Some (Wrap err "unable convert config to map"))
  | Ok configMap =>
    appErr <- call (SavePluginConfig configMap) (EvSavePluginConfig configMap) ;;
    match appErr with
    | Some e => ret (Some (Wrap e "unable to save links"))
    | None => ret None
    end
  end.

Definition SaveLinks (p : Plugin) (links : slice Autolink) : M (option error) :=
  UpdateConfig p (fun c => set_Links c links) ;;
  persist p.

(** *** [func (conf *Config) Sorted() *Config]

    [sorted := conf] copies the pointer, so the assignment to
    [sorted.Links] writes the cell of [conf]; [sort.Slice] then orders the
    slice just stored there, and the pointer returned is [conf]. *)
Context {sorter : Sorter}.

Definition lessByDisplayName (a b : Autolink) : bool :=
  Compare_lt (DisplayName a) (DisplayName b).

Definition Sorted (conf : ptr) : M ptr :=
  let sorted := conf in
  c <- deref conf ;;
  assign sorted (set_Links c (append_to_empty (Links c))) ;;
  c <- deref conf ;;
  assign conf (set_Links c (mk_slice (sort_Slice lessByDisplayName (elems (Links c))))) ;;
  ret conf.

End Plugin.

(** ** Reading a trace and a world *)

Section Traces.
Context {ops : LinkOps} {api : PluginAPI}.

(** The user ids passed to [GetUser], in order. *)
Definition lookups (es : list Event) : list string :=
  omap (fun ev => match ev with EvGetUser id _ => Some id | _ => None end) es.

(** The user ids for which [GetUser] returned no error. *)
Definition found (es : list Event) : list string :=
  omap (fun ev => match ev with EvGetUser id None => Some id | _ => None end) es.

(** The user ids for which [GetUser] returned an error. *)
Definition failed (es : list Event) : list string :=
  omap (fun ev => match ev with EvGetUser id (Some _) => Some id | _ => None end) es.

(** The user ids that a warning was logged about. *)
Definition warned (es : list Event) : list string :=
  omap (fun ev => match ev with
                  | EvLogWarn _ [LogString "userID"; LogString id; _; _] => Some id
                  | _ => None
                  end) es.

(** The event is a line written to the log. *)
Definition is_log (ev : Event) : bool :=
  match ev with
  | EvLogError _ _ | EvLogWarn _ _ => true
  | _ => false
  end.

(** The event is a line written to the log by [LogError]. *)
Definition is_error_log (ev : Event) : bool :=
  match ev with
  | EvLogError _ _ => true
  | _ => false
  end.

(** The event is a call of [RegisterCommand] or [UnregisterCommand]. *)
Definition is_registration (ev : Event) : bool :=
  match ev with
  | EvRegisterCommand _ _ | EvUnregisterCommand _ _ _ => true
  | _ => false
  end.

(** The event is a call of [GetUser] or the warning that follows a failed one. *)
Definition is_lookup_or_warning (ev : Event) : bool :=
  match ev with
  | EvGetUser _ _ | EvLogWarn _ _ => true
  | _ => false
  end.

(** [Get()]: the configuration a reader sees through [getConfig]. *)
Definition Get (p : Plugin) : M Config :=
  bind (getConfig p) deref.

(** Two worlds with the same memory: the same cells and the same
    goroutines waiting. *)
Definition same_memory (w w' : World) : Prop :=
  heap w' = heap w /\ goroutines w' = goroutines w.

(** The rules that failed to compile. *)
Definition compile_failures (ls : list Autolink) : list Autolink :=
  filter (fun l => is_Some (Compile l).2) ls.

(** The tokens of a raw admin list that [parsePluginAdminList] goes
    through: none for the empty list, else the trimmed pieces between
    the commas. *)
Definition admin_tokens (raw : string) : list string :=
  if decide (raw = EmptyString) then [] else map TrimSpace (Split raw ",").

(** A raw admin list whose white space is not ASCII: u1 between a
    no-break space (C2 A0) and a line separator (E2 80 A8), a comma, and
    u3 after a blank and before a line separator. *)
Definition admins_in_unicode_space : string :=
  of_bytes [194; 160; 117; 49; 226; 128; 168; 44; 32; 117; 51; 226; 128; 168].

(** The world after [*p = c]. *)
Definition written (w : World) (p : ptr) (c : Config) : World :=
  {| heap := <[p := c]> (heap w); host := host w;
     trace := trace w; goroutines := goroutines w |}.

(** [ToMap] followed by the structured reload. *)
Definition round_trip (conf : Config) : option Config :=
  match ToMap conf with
  | Ok m => Reload m
  | Err _ => None
  end.

(** A rule that comes back from its own JSON form. *)
Definition reloads (l : Autolink) : Prop :=
  exists j, MarshalLink l = Ok j /\ UnmarshalLink j = Some l.

End Traces.

(** ** A sample rule type and a sample host, to run the model on inputs *)

Module Sample.

(** A rule with a name, a pattern and the state that [Compile] leaves;
    the pattern ["("] does not compile. The display name is the name, or
    the pattern when the rule has no name. *)
Record Rule : Type := { Name : string; Pattern : string; compiled : bool }.

Definition compileRule (r : Rule) : Rule * option error :=
  if String.eqb (Pattern r) "(" then (r, Some (NewError "missing closing )"))
  else ({| Name := Name r; Pattern := Pattern r; compiled := true |}, None).

Definition displayName (r : Rule) : string :=
  if String.eqb (Name r) EmptyString then Pattern r else Name r.

(** A rule named ["!"] has no JSON form, so that the error branch of
    [ToMap] can be run. *)
Definition marshalRule (r : Rule) : result json :=
  if String.eqb (Name r) "!" then Err (NewError "json: unsupported value") else
  Ok (JObject (<["Name" := JString (json_string (Name r))]>
               (<["Pattern" := JString (json_string (Pattern r))]> ∅))).

Definition unmarshalRule (j : json) : option Rule :=
  match j with
  | JObject m =>
    match m !! "Name", m !! "Pattern" with
    | Some (JString n), Some (JString p) => Some {| Name := n; Pattern := p; compiled := false |}
    | _, _ => None
    end
  | _ => None
  end.

Definition rules : LinkOps :=
  {| Autolink := Rule; Compile := compileRule; DisplayName := displayName;
     MarshalLink := marshalRule; UnmarshalLink := unmarshalRule |}.

(** A host that answers from a fixed script and knows the users u1
    and u3. *)
Record Script : Type := {
  stored : result (@Config rules);
  save_error : option error;
  register_error : option error
}.

Definition api : @PluginAPI rules :=
  {| Host := Script;
     LoadPluginConfiguration := fun h => (stored h, h);
     GetUser := fun id h =>
       (if bool_decide (id ∈ ["u1"; "u3"]) then None else Some (NewError "user not found"), h);
     LogError := fun _ _ h => h;
     LogWarn := fun _ _ h => h;
     RegisterCommand := fun _ h => (register_error h, h);
     UnregisterCommand := fun _ _ h => (register_error h, h);
     SavePluginConfig := fun _ h => (save_error h, h) |}.

Definition sorter : Sorter := @insertionSort.

Definition rule (name pattern : string) : Rule :=
  {| Name := name; Pattern := pattern; compiled := false |}.

Definition config (enable : bool) (admins : string) (links : slice Rule) : @Config rules :=
  @Build_Config rules enable false admins links ∅.

Definition script (c : result (@Config rules)) (save register : option error) : Script :=
  {| stored := c; save_error := save; register_error := register |}.

(** The plugin keeps its configuration in cell 1, which starts out zero. *)
Definition plugin : Plugin := {| conf := 1 |}.

Definition world (h : Script) (c : @Config rules) : @World rules api :=
  @Build_World rules api {[ 1 := c ]} h [] [].

(** The configuration in the store at the start, and the one the host
    has for the next load: its second rule does not compile. *)
Definition c_old : @Config rules := config false "u9" (mk_slice [rule "old" "o"]).
Definition c_new : @Config rules :=
  config true "u1, u2 ,u3" (mk_slice [rule "b" "x"; rule EmptyString "("; rule "a" "y"]).

Definition load_failed : error := NewError "unexpected end of JSON input".
Definition save_failed : error := NewError "SavePluginConfig: store is read-only".
Definition register_failed : error := NewError "RegisterCommand: trigger is taken".

Definition w_ok : @World rules api := world (script (Ok c_new) None None) c_old.
Definition w_load_error : @World rules api :=
  world (script (Err load_failed) None None) c_old.
Definition w_save_error : @World rules api :=
  world (script (Ok c_new) (Some save_failed) None) c_old.
Definition w_register_error : @World rules api :=
  world (script (Ok c_new) None (Some register_failed)) c_old.

(** A host whose stored configuration has no rule and no admin, and
    turns the admin command on. *)
Definition c_plain : @Config rules := config true EmptyString nil_slice.
Definition w_register_error_plain : @World rules api :=
  world (script (Ok c_plain) None (Some register_failed)) c_old.

(** The configuration that [OnConfigurationChange] stores when the host
    has [c_new]: the rules that compile are compiled, the admins are u1
    and u3. *)
Definition c_stored : @Config rules :=
  @Build_Config rules true false "u1, u2 ,u3"
    (mk_slice [ {| Name := "b"; Pattern := "x"; compiled := true |};
                rule EmptyString "(";
                {| Name := "a"; Pattern := "y"; compiled := true |} ])
    {[ "u1"; "u3" ]}.

(** A plugin whose [conf] is nil: no cell has address 0. *)
Definition nil_plugin : Plugin := {| conf := 0 |}.

(** A raw admin list of two blanks. *)
Definition c_blank : @Config rules := config false "  " nil_slice.

(** A rule that [ToMap] cannot encode. *)
Definition unencodable : slice (@Autolink rules) := mk_slice [rule "!" "x"].

(** Rules in an order that is not the order of their names. *)
Definition unsorted : slice (@Autolink rules) := mk_slice [rule "b" "x"; rule "a" "y"].

(** A world whose configuration holds the rules b, a. *)
Definition w_unsorted : @World rules api :=
  world (script (Ok c_new) None None) (config false EmptyString unsorted).

End Sample.

(** ** Orders, logs and sequences of calls *)

(** [R] holds between each element of the list and the next. *)
Fixpoint adjacent {A} (R : A -> A -> Prop) (l : list A) : Prop :=
  match l with
  | [] => True
  | a :: rest =>
    match rest with
    | [] => True
    | b :: _ => R a b
    end /\ adjacent R rest
  end.

(** No element is less than the one before it. *)
Definition ordered {A} (less : A -> A -> bool) (l : list A) : Prop :=
  adjacent (fun a b => less b a = false) l.

(** What package sort asks of [less]: a strict order in which being
    incomparable is transitive. *)
Definition strict_weak_order {A} (less : A -> A -> bool) : Prop :=
  (forall a, less a a = false)
  /\ (forall a b c, less a b = true -> less b c = true -> less a c = true)
  /\ (forall a b c, less a b = false -> less b c = false -> less a c = false).

(** What [sort.Slice] promises for such a [less]. *)
Definition sorts (srt : Sorter) : Prop :=
  forall (A : Type) (less : A -> A -> bool) (l : list A),
    strict_weak_order less ->
    @sort_Slice srt A less l ≡ₚ l /\ ordered less (@sort_Slice srt A less l).

(** The parts of an [AutocompleteData]. *)
Definition trigger_of (d : model.AutocompleteData) : string :=
  match d with model.NewAutocompleteData t _ _ _ _ => t end.

Definition arguments_of (d : model.AutocompleteData) : list model.AutocompleteArg :=
  match d with model.NewAutocompleteData _ _ _ args _ => args end.

Definition subCommands_of (d : model.AutocompleteData) : list model.AutocompleteData :=
  match d with model.NewAutocompleteData _ _ _ _ subs => subs end.

(** The items of the static lists among the arguments. *)
Definition list_items (d : model.AutocompleteData) : list string :=
  flat_map (fun a => match a with
                     | model.StaticListArgument _ _ items => map model.Item items
                     | model.TextArgument _ _ _ => []
                     end) (arguments_of d).

Section Calls.
Context {ops : LinkOps} {api : PluginAPI} {sorter : Sorter}.

(** The lines that the loop over the rules writes to the error log. *)
Definition compile_log (ls : list Autolink) : list Event :=
  flat_map (fun l => match (Compile l).2 with
                     | Some e =>
                       [EvLogError "Error creating autolinker"
                          [LogString "link"; LogLink (Compile l).1;
                           LogString "error"; LogString (ErrorText e)]]
                     | None => []
                     end) ls.

(** A call that the host or a command handler makes on the plugin;
    [CallSorted] is [p.getConfig().Sorted()], [CallGoroutines] lets the
    goroutines that were started run. *)
Inductive Call : Type :=
| CallOnConfigurationChange
| CallSaveLinks (links : slice Autolink)
| CallGetLinks
| CallGetConfig
| CallSorted
| CallGoroutines.

Definition run_call (p : Plugin) (c : Call) : M unit :=
  match c with
  | CallOnConfigurationChange => bind (OnConfigurationChange p) (fun _ => ret tt)
  | CallSaveLinks links => bind (SaveLinks p links) (fun _ => ret tt)
  | CallGetLinks => bind (GetLinks p) (fun _ => ret tt)
  | CallGetConfig => bind (getConfig p) (fun _ => ret tt)
  | CallSorted => bind (getConfig p) (fun q => bind (Sorted q) (fun _ => ret tt))
  | CallGoroutines => run_goroutines
  end.

(** A reader that calls [getConfig] once and reads two fields through
    the pointer it got: [PluginAdmins] first and [Links] later, while
    [between] runs in another goroutine in the meantime. *)
Definition read_across {A} (p : Plugin) (between : M A) : M (string * slice Autolink) :=
  bind (getConfig p) (fun q =>
  bind (deref q) (fun c1 =>
  bind between (fun _ =>
  bind (deref q) (fun c2 =>
  ret (PluginAdmins c1, Links c2))))).

(** The plugin's cell holds a configuration, and every other cell is as
    in [w]. *)
Definition conf_kept (p : Plugin) (w w' : World) : Prop :=
  is_Some (heap w' !! conf p)
  /\ forall q, q <> conf p -> heap w' !! q = heap w !! q.

Fixpoint run_calls (p : Plugin) (cs : list Call) : M unit :=
  match cs with
  | [] => ret tt
  | c :: rest => bind (run_call p c) (fun _ => run_calls p rest)
  end.

End Calls.

(** * Theorems *)

Local Open Scope list_scope.

(** ** The string functions on small inputs *)

Example Split_admins : Split "u1, u2 ,u3" "," = ["u1"; " u2 "; "u3"].
Proof. reflexivity. Qed.

Example Split_empty : Split EmptyString "," = [EmptyString].
Proof. reflexivity. Qed.

Example Split_edges : Split ",a,," "," = [EmptyString; "a"; EmptyString; EmptyString].
Proof. reflexivity. Qed.

Example TrimSpace_ascii : TrimSpace "  u2 " = "u2" /\ TrimSpace "   " = EmptyString.
Proof. split; reflexivity. Qed.

(** A no-break space (C2 A0) in front and a line separator (E2 80 A8)
    behind are trimmed, the space inside stays. *)
Example TrimSpace_unicode :
  TrimSpace (of_bytes [32; 194; 160; 97; 32; 98; 226; 128; 168; 10]) = "a b".
Proof. vm_compute. reflexivity. Qed.

(** Bytes that are not UTF-8 are no space. *)
Example TrimSpace_invalid :
  TrimSpace (of_bytes [32; 194; 97; 128; 10]) = of_bytes [194; 97; 128].
Proof. vm_compute. reflexivity. Qed.

(** The bytes FF and a lone C2 become U+FFFD, the line separator stays. *)
Example json_string_coerces :
  json_string (of_bytes [97; 255; 226; 128; 168; 194])
  = of_bytes [97; 239; 191; 189; 226; 128; 168; 239; 191; 189].
Proof. vm_compute. reflexivity. Qed.

Example insertionSort_names :
  insertionSort Compare_lt ["b"; "a"; "c"; "a"] = ["a"; "a"; "b"; "c"].
Proof. vm_compute. reflexivity. Qed.

Section Proofs.
Context {ops : LinkOps} {api : PluginAPI} {sorter : Sorter}.

Lemma same_memory_refl w : same_memory w w.
Proof. by split. Qed.

Lemma same_memory_trans w1 w2 w3 :
  same_memory w1 w2 -> same_memory w2 w3 -> same_memory w1 w3.
Proof. intros [H1 H2] [H3 H4]. split; congruence. Qed.

(** *** The loop over the rules *)

Lemma compileLinks_spec (ls : list Autolink) (w : World) :
  exists w' es,
    compileLinks ls w = Some (map (fun l => (Compile l).1) ls, w')
    /\ same_memory w w'
    /\ trace w' = trace w ++ es
    /\ Forall (fun ev => is_error_log ev = true) es
    /\ length es = length (compile_failures ls).
Proof.
  revert w. induction ls as [|l rest IH]; intros w.
  - exists w, []. cbn. rewrite app_nil_r. repeat split; auto.
  - cbn [compileLinks map]. unfold compile_failures. rewrite filter_cons.
    destruct (Compile l) as [l' [e|]] eqn:Hc; cbn [fst snd].
    + set (kv := [LogString "link"; LogLink l'; LogString "error"; LogString (ErrorText e)]).
      set (w1 := {| heap := heap w; host := LogError "Error creating autolinker" kv (host w);
                    trace := trace w ++ [EvLogError "Error creating autolinker" kv];
                    goroutines := goroutines w |}).
      destruct (IH w1) as (w' & es & Hrun & [Hh Hg] & Ht & Hlog & Hlen).
      exists w', (EvLogError "Error creating autolinker" kv :: es).
      unfold bind, call_. fold w1. unfold bind in Hrun. rewrite Hrun. cbn.
      repeat split; auto.
      * rewrite Ht. cbn. by rewrite <- app_assoc.
      * rewrite decide_True by eauto. cbn. f_equal. exact Hlen.
    + destruct (IH w) as (w' & es & Hrun & Hm & Ht & Hlog & Hlen).
      exists w', es. unfold bind, ret. unfold bind in Hrun. rewrite Hrun. cbn.
      repeat split; try apply Hm; auto.
Qed.

Lemma compileSlice_spec (s : slice Autolink) (w : World) :
  exists w' links es,
    compileSlice s w = Some (links, w')
    /\ same_memory w w'
    /\ elems links = map (fun l => (Compile l).1) (elems s)
    /\ (links = nil_slice <-> s = nil_slice)
    /\ trace w' = trace w ++ es
    /\ Forall (fun ev => is_error_log ev = true) es
    /\ length es = length (compile_failures (elems s)).
Proof.
  destruct s as [|l]; cbn.
  - exists w, nil_slice, []. rewrite app_nil_r. repeat split; auto.
  - destruct (compileLinks_spec l w) as (w' & es & Hrun & Hm & Ht & Hlog & Hlen).
    exists w', (mk_slice (map (fun l => (Compile l).1) l)), es.
    unfold bind. rewrite Hrun. cbn. repeat split; auto; try apply Hm; done.
Qed.

(** *** The loop over the user ids *)

Lemma verifyUserIDs_spec (userIDs : list string) (ids : gset string) (w : World) :
  exists ids' w' es,
    verifyUserIDs userIDs ids w = Some (ids', w')
    /\ same_memory w w'
    /\ trace w' = trace w ++ es
    /\ lookups es = map TrimSpace userIDs
    /\ ids' = list_to_set (found es) ∪ ids
    /\ warned es = failed es
    /\ Forall (fun ev => is_lookup_or_warning ev = true) es.
Proof.
  revert ids w. induction userIDs as [|tok rest IH]; intros ids w.
  - exists ids, w, []. cbn. rewrite app_nil_r.
    repeat split; auto. set_solver.
  - cbn [verifyUserIDs map]. set (userID := TrimSpace tok).
    unfold bind at 1. unfold call at 1.
    destruct (GetUser userID (host w)) as [[e|] h1] eqn:Hget.
    + set (kv := [LogString "userID"; LogString userID; LogString "error"; LogErr e]).
      set (w2 := {| heap := heap w;
                    host := LogWarn "Error occurred while verifying userID" kv h1;
                    trace := (trace w ++ [EvGetUser userID (Some e)])
                               ++ [EvLogWarn "Error occurred while verifying userID" kv];
                    goroutines := goroutines w |}).
      destruct (IH ids w2) as (ids' & w' & es & Hrun & [Hh Hg] & Ht & Hl & Hids & Hw & Hall).
      exists ids', w',
        (EvGetUser userID (Some e) :: EvLogWarn "Error occurred while verifying userID" kv :: es).
      unfold bind, call_. cbn [heap host trace goroutines]. fold w2. rewrite Hrun.
      repeat split; auto.
      * rewrite Ht. cbn. by rewrite <- !app_assoc.
      * cbn. by rewrite <- Hl.
      * cbn. f_equal. exact Hw.
    + set (w1 := {| heap := heap w; host := h1;
                    trace := trace w ++ [EvGetUser userID None];
                    goroutines := goroutines w |}).
      destruct (IH ({[userID]} ∪ ids) w1) as (ids' & w' & es & Hrun & [Hh Hg] & Ht & Hl & Hids & Hw & Hall).
      exists ids', w', (EvGetUser userID None :: es).
      rewrite Hrun.
      repeat split; auto.
      * rewrite Ht. cbn. by rewrite <- app_assoc.
      * cbn. by rewrite <- Hl.
      * rewrite Hids. cbn. set_solver.
Qed.

Lemma parsePluginAdminList_spec (conf : Config) (w : World) :
  exists ids w' es,
    parsePluginAdminList conf w = Some (set_AdminUserIds conf ids, w')
    /\ same_memory w w'
    /\ trace w' = trace w ++ es
    /\ lookups es = admin_tokens (PluginAdmins conf)
    /\ ids = list_to_set (found es)
    /\ warned es = failed es
    /\ Forall (fun ev => is_lookup_or_warning ev = true) es.
Proof.
  unfold parsePluginAdminList, admin_tokens. cbn [PluginAdmins set_AdminUserIds AdminUserIds].
  destruct (PluginAdmins conf) as [|c raw] eqn:Hraw.
  - exists ∅, w, []. cbn. rewrite app_nil_r. repeat split; auto.
  - rewrite decide_False by discriminate. cbn [String.length Nat.eqb].
    destruct (verifyUserIDs_spec (Split (String c raw) ",") ∅ w)
      as (ids' & w' & es & Hrun & Hm & Ht & Hl & Hids & Hw & Hall).
    exists ids', w', es. unfold bind. rewrite Hrun. cbn.
    repeat split; try apply Hm; auto.
    rewrite Hids. set_solver.
Qed.

(** *** Running the accessors *)

Lemma bind_run {A B} (m : M A) (k : A -> M B) (w w' : World) (a : A) :
  m w = Some (a, w') -> bind m k w = k a w'.
Proof. intros H. unfold bind. by rewrite H. Qed.

Lemma bind_panic {A B} (m : M A) (k : A -> M B) (w : World) :
  m w = None -> bind m k w = None.
Proof. intros H. unfold bind. by rewrite H. Qed.

Lemma UpdateConfig_run (p : Plugin) (f : Config -> Config) (w : World) (c : Config) :
  heap w !! conf p = Some c ->
  UpdateConfig p f w = Some (tt, written w (conf p) (f c)).
Proof.
  intros H. unfold UpdateConfig, bind, deref, assign. by rewrite H, H.
Qed.

Lemma Get_run (p : Plugin) (w : World) (c : Config) :
  heap w !! conf p = Some c -> Get p w = Some (c, w).
Proof.
  intros H. unfold Get, getConfig, bind, ret, deref. by rewrite H.
Qed.

Lemma Get_written (p : Plugin) (w : World) (c : Config) :
  Get p (written w (conf p) c) = Some (c, written w (conf p) c).
Proof. apply Get_run. cbn. apply lookup_insert_eq. Qed.

(** C1. When [LoadPluginConfiguration] returns an error,
    [OnConfigurationChange] returns that error wrapped with the message
    "failed to load plugin configuration"; the heap, and so the
    configuration in the store, is what it was; the only call made to the
    host is the load (no rule is compiled or logged about, no user is
    looked up) and no goroutine is started. *)
Theorem OnConfigurationChange_load_error (p : Plugin) (w : World) (err : error) (h' : Host) :
  LoadPluginConfiguration (host w) = (Err err, h') ->
  OnConfigurationChange p w =
    Some (Some (Wrap err "failed to load plugin configuration"),
          {| heap := heap w; host := h';
             trace := trace w ++ [EvLoadPluginConfiguration (Err err)];
             goroutines := goroutines w |}).
Proof.
  intros Hload. unfold OnConfigurationChange, bind, call. by rewrite Hload.
Qed.

(** What [OnConfigurationChange] does when the load succeeds and
    [p.conf] points to a cell. *)
Lemma OnConfigurationChange_run (p : Plugin) (w : World) (c old : Config) (h' : Host) :
  LoadPluginConfiguration (host w) = (Ok c, h') ->
  heap w !! conf p = Some old ->
  exists links ids w3 es1 es2,
    let c' := set_AdminUserIds (set_Links c links) ids in
    OnConfigurationChange p w =
      Some (None, {| heap := <[conf p := c']> (heap w); host := host w3;
                     trace := trace w3; goroutines := goroutines w ++ [c'] |})
    /\ elems links = map (fun l => (Compile l).1) (elems (Links c))
    /\ (links = nil_slice <-> Links c = nil_slice)
    /\ trace w3 = trace w ++ [EvLoadPluginConfiguration (Ok c)] ++ es1 ++ es2
    /\ Forall (fun ev => is_error_log ev = true) es1
    /\ length es1 = length (compile_failures (elems (Links c)))
    /\ lookups es2 = admin_tokens (PluginAdmins c)
    /\ ids = list_to_set (found es2)
    /\ warned es2 = failed es2
    /\ Forall (fun ev => is_lookup_or_warning ev = true) es2.
Proof.
  intros Hload Hold.
  set (w1 := {| heap := heap w; host := h';
                trace := trace w ++ [EvLoadPluginConfiguration (Ok c)];
                goroutines := goroutines w |}).
  destruct (compileSlice_spec (Links c) w1)
    as (w2 & links & es1 & Hrun1 & [Hh1 Hg1] & Hel & Hnil & Ht1 & Hlog1 & Hlen1).
  destruct (parsePluginAdminList_spec (set_Links c links) w2)
    as (ids & w3 & es2 & Hrun2 & [Hh2 Hg2] & Ht2 & Hl2 & Hids & Hw2 & Hall2).
  exists links, ids, w3, es1, es2. cbn zeta.
  assert (Hold3 : heap w3 !! conf p = Some old) by (rewrite Hh2, Hh1; exact Hold).
  split.
  - unfold OnConfigurationChange.
    unfold bind at 1. unfold call. rewrite Hload. fold w1.
    rewrite (bind_run _ _ _ _ _ Hrun1).
    rewrite (bind_run _ _ _ _ _ Hrun2).
    rewrite (bind_run _ _ _ _ _ (UpdateConfig_run p _ w3 old Hold3)).
    unfold bind, go, ret, written. cbn. rewrite Hh2, Hh1, Hg2, Hg1. reflexivity.
  - repeat split; try apply Hnil; auto.
    rewrite Ht2, Ht1. cbn. by rewrite <- !app_assoc.
Qed.

(** C2. When the load succeeds, every rule of the loaded list is put
    through [Compile] whether or not an earlier one failed, each failure
    costs one line in the error log and nothing else,
    [OnConfigurationChange] returns nil, and the configuration that
    [Get()] returns afterwards is the loaded one, holding the rules as
    [Compile] left them, as many as were loaded. *)
Theorem OnConfigurationChange_compile_errors_not_fatal
    (p : Plugin) (w : World) (c old : Config) (h' : Host) :
  LoadPluginConfiguration (host w) = (Ok c, h') ->
  heap w !! conf p = Some old ->
  exists w' c',
    OnConfigurationChange p w = Some (None, w')
    /\ Get p w' = Some (c', w')
    /\ EnableAdminCommand c' = EnableAdminCommand c
    /\ EnableOnUpdate c' = EnableOnUpdate c
    /\ PluginAdmins c' = PluginAdmins c
    /\ elems (Links c') = map (fun l => (Compile l).1) (elems (Links c))
    /\ len (Links c') = len (Links c)
    /\ length (filter (fun ev => is_error_log ev = true) (trace w'))
       = length (filter (fun ev => is_error_log ev = true) (trace w))
         + length (compile_failures (elems (Links c))).
Proof.
  intros Hload Hold.
  destruct (OnConfigurationChange_run p w c old h' Hload Hold)
    as (links & ids & w3 & es1 & es2 & Hrun & Hel & Hnil & Ht & Hlog & Hlen & _ & _ & _ & Hall).
  cbn zeta in Hrun.
  eexists _, (set_AdminUserIds (set_Links c links) ids).
  split; [exact Hrun|]. split; [|do 3 (split; [reflexivity|]); split; [|split]].
  - apply Get_run. cbn. apply lookup_insert_eq.
  - exact Hel.
  - unfold len. cbn. rewrite Hel. apply length_map.
  - cbn [trace]. rewrite Ht, !filter_app, !length_app. cbn [filter list_filter].
    rewrite decide_False by (cbn; discriminate). cbn.
    rewrite <- Hlen. f_equal.
    assert (H1 : filter (fun ev => is_error_log ev = true) es1 = es1).
    { clear -Hlog. induction Hlog as [|ev es Hev _ IH]; [done|].
      by rewrite filter_cons, IH, decide_True. }
    assert (H2 : filter (fun ev => is_error_log ev = true) es2 = []).
    { clear -Hall. induction Hall as [|ev es Hev _ IH]; [done|].
      rewrite filter_cons, IH. rewrite decide_False; [done|].
      destruct ev; cbn in *; congruence. }
    rewrite H1, H2. cbn. lia.
Qed.

(** C3. [parsePluginAdminList] never fails and changes no field but
    [AdminUserIds]. The ids it passes to [GetUser] are the pieces of the
    raw list between the commas, each with the white space around it
    trimmed (Unicode white space too), in order; the [AdminUserIds] of
    the result holds exactly the ids for which [GetUser] returned no
    error; every id for which it returned an error is warned about and
    left out, and nothing else is called. For the raw list "u1, u2 ,u3"
    and a host that knows u1 and u3 and not u2, the [AdminUserIds] of the
    result is {u1, u3}. *)
Theorem parsePluginAdminList_resolves (conf : Config) (w : World) :
  (exists c' w' es,
      parsePluginAdminList conf w = Some (c', w')
      /\ same_memory w w'
      /\ trace w' = trace w ++ es
      /\ lookups es = admin_tokens (PluginAdmins conf)
      /\ (PluginAdmins conf = admins_in_unicode_space -> lookups es = ["u1"; "u3"])
      /\ AdminUserIds c' = list_to_set (found es)
      /\ (forall x, x ∈ AdminUserIds c' <-> x ∈ found es)
      /\ EnableAdminCommand c' = EnableAdminCommand conf
      /\ EnableOnUpdate c' = EnableOnUpdate conf
      /\ PluginAdmins c' = PluginAdmins conf
      /\ Links c' = Links conf
      /\ warned es = failed es
      /\ Forall (fun ev => is_lookup_or_warning ev = true) es)
  /\ (PluginAdmins conf = "u1, u2 ,u3" ->
      (forall h, (GetUser "u1" h).1 = None) ->
      (forall h, is_Some (GetUser "u2" h).1) ->
      (forall h, (GetUser "u3" h).1 = None) ->
      exists c' w',
        parsePluginAdminList conf w = Some (c', w')
        /\ AdminUserIds c' = {["u1"; "u3"]}
        /\ (forall x, x ∈ AdminUserIds c' <-> x = "u1" \/ x = "u3")).
Proof.
  split.
  { destruct (parsePluginAdminList_spec conf w)
      as (ids & w' & es & Hrun & Hm & Ht & Hl & Hids & Hw & Hall).
    exists (set_AdminUserIds conf ids), w', es.
    split; [exact Hrun|]. split; [exact Hm|]. split; [exact Ht|].
    split; [exact Hl|]. split.
    { intros Hraw. rewrite Hl, Hraw. vm_compute. reflexivity. }
    split; [exact Hids|]. split.
    { intros x. cbn [AdminUserIds set_AdminUserIds]. rewrite Hids.
      apply elem_of_list_to_set. }
    by repeat split. }
  intros Hraw H1 H2 H3.
  unfold parsePluginAdminList. cbn [set_AdminUserIds PluginAdmins AdminUserIds].
  rewrite Hraw.
  change (String.length "u1, u2 ,u3" =? 0)%nat with false. cbv iota.
  replace (Split "u1, u2 ,u3" ",") with ["u1"; " u2 "; "u3"] by (vm_compute; reflexivity).
  cbn [verifyUserIDs].
  replace (TrimSpace "u1") with "u1" by (vm_compute; reflexivity).
  replace (TrimSpace " u2 ") with "u2" by (vm_compute; reflexivity).
  replace (TrimSpace "u3") with "u3" by (vm_compute; reflexivity).
  unfold bind, call, call_, ret. cbn [host].
  destruct (GetUser "u1" (host w)) as [r1 h1] eqn:E1.
  pose proof (H1 (host w)) as X1. rewrite E1 in X1. cbn in X1. subst r1.
  cbn [host].
  destruct (GetUser "u2" h1) as [r2 h2] eqn:E2.
  pose proof (H2 h1) as X2. rewrite E2 in X2. cbn in X2. destruct X2 as [e2 ->].
  cbn [host].
  match goal with |- context [GetUser "u3" ?h] => destruct (GetUser "u3" h) as [r3 h3] eqn:E3;
    pose proof (H3 h) as X3; rewrite E3 in X3; cbn in X3; subst r3 end.
  eexists _, _. split; [reflexivity|].
  cbn [AdminUserIds set_AdminUserIds]. split; [set_solver|].
  intros x. set_solver.
Qed.

(** [Split] returns one piece more than [Count] finds separators. *)
Lemma genSplit_length (fuel : nat) (s sep : string) :
  length (genSplit_loop (Count_loop fuel s sep) s sep) = S (Count_loop fuel s sep).
Proof.
  revert s. induction fuel as [|k IH]; intros s; cbn [Count_loop]; [done|].
  destruct (Index s sep) as [i|] eqn:Hi; cbn [genSplit_loop]; [|done].
  rewrite Hi. cbn [length]. by rewrite IH.
Qed.

Lemma Split_length (s sep : string) : length (Split s sep) = S (Count s sep).
Proof. apply genSplit_length. Qed.

(** C4, as the code has it. [parsePluginAdminList] looks up every piece
    of a raw list that is not empty, one call of [GetUser] for each of
    the [Count(raw, ",") + 1] pieces, the pieces that are empty after
    trimming included; for the empty raw list the set is empty and the
    host is not called at all. *)
Theorem parsePluginAdminList_lookups (conf : Config) (w : World) :
  exists ids w' es,
    parsePluginAdminList conf w = Some (set_AdminUserIds conf ids, w')
    /\ trace w' = trace w ++ es
    /\ match PluginAdmins conf with
       | EmptyString => ids = ∅ /\ es = [] /\ w' = w
       | raw => lookups es = map TrimSpace (Split raw ",")
                /\ length (lookups es) = S (Count raw ",")
       end.
Proof.
  destruct (PluginAdmins conf) as [|ch raw] eqn:Hraw.
  - exists ∅, w, []. unfold parsePluginAdminList.
    cbn [set_AdminUserIds PluginAdmins]. rewrite Hraw. cbn.
    rewrite app_nil_r. repeat split; auto; done.
  - destruct (parsePluginAdminList_spec conf w)
      as (ids & w' & es & Hrun & _ & Ht & Hl & _).
    exists ids, w', es. rewrite Hraw in Hl. unfold admin_tokens in Hl.
    rewrite decide_False in Hl by discriminate.
    repeat split; auto.
    rewrite Hl, length_map. apply Split_length.
Qed.

(** *** [ToMap] and the reload *)

Lemma marshal_links_reload (ls : list Autolink) :
  Forall reloads ls ->
  exists js, marshal_links ls = Ok js /\ reload_links js = Some ls.
Proof.
  induction 1 as [|l ls (j & Hm & Hu) _ (js & Hms & Hus)].
  - by exists [].
  - exists (j :: js). cbn. by rewrite Hm, Hms, Hu, Hus.
Qed.

Lemma ToMap_keys (conf : Config) (m : gmap string json) :
  ToMap conf = Ok m ->
  dom m = {["enableadmincommand"; "enableonupdate"; "pluginadmins"; "links"]}.
Proof.
  unfold ToMap, Marshal. destruct (marshal_slice (Links conf)) as [jl|e]; [|done].
  cbn. intros [= <-]. rewrite !dom_insert_L, dom_empty_L. set_solver.
Qed.

Lemma links_round_trip (ls ls' : list Autolink) (js : list json) :
  marshal_links ls = Ok js ->
  reload_links js = Some ls' ->
  Forall2 (fun l l' => exists j, MarshalLink l = Ok j /\ UnmarshalLink j = Some l') ls ls'.
Proof.
  revert ls' js. induction ls as [|l ls IH]; intros ls' js; cbn.
  - intros [= <-]. cbn. intros [= <-]. constructor.
  - destruct (MarshalLink l) as [j|e] eqn:Hj; [|done].
    destruct (marshal_links ls) as [js0|e] eqn:Hjs; [|done].
    intros [= <-]. cbn.
    destruct (UnmarshalLink j) as [l'|] eqn:Hl'; [|done].
    destruct (reload_links js0) as [ls0|] eqn:Hls0; [|done].
    intros [= <-]. constructor; [eauto|]. by eapply IH.
Qed.

Lemma links_round_trip_succeeds (ls : list Autolink) :
  (exists js ls', marshal_links ls = Ok js /\ reload_links js = Some ls')
  <-> Forall (fun l => exists j l', MarshalLink l = Ok j /\ UnmarshalLink j = Some l') ls.
Proof.
  induction ls as [|l ls IH]; cbn.
  - split; [constructor | by exists [], []].
  - split.
    + intros (js & ls' & Hm & Hr).
      destruct (MarshalLink l) as [j|e] eqn:Hj; [|done].
      destruct (marshal_links ls) as [js0|e] eqn:Hjs; [|done].
      injection Hm as <-. cbn in Hr.
      destruct (UnmarshalLink j) as [l'|] eqn:Hl'; [|done].
      destruct (reload_links js0) as [ls0|] eqn:Hls0; [|done].
      constructor; [eauto|]. apply IH. eauto.
    + intros [(j & l' & Hj & Hl') Hrest]%Forall_cons.
      apply IH in Hrest as (js & ls' & Hm & Hr).
      exists (j :: js), (l' :: ls'). rewrite Hj, Hm. cbn. by rewrite Hl', Hr.
Qed.

(** [ToMap] followed by the reload, field by field. *)
Lemma round_trip_unfold (conf : Config) :
  round_trip conf =
    match marshal_slice (Links conf) with
    | Err _ => None
    | Ok jl =>
      match reload_slice (Some jl) with
      | Some l =>
        Some {| EnableAdminCommand := EnableAdminCommand conf;
                EnableOnUpdate := EnableOnUpdate conf;
                PluginAdmins := json_string (json_string (PluginAdmins conf));
                Links := l; AdminUserIds := ∅ |}
      | None => None
      end
    end.
Proof.
  unfold round_trip, ToMap, Marshal.
  destruct (marshal_slice (Links conf)) as [jl|e]; [|done].
  cbn [UnmarshalMap]. unfold Reload.
  rewrite lookup_insert_eq.
  rewrite lookup_insert_ne, lookup_insert_eq by done.
  do 2 rewrite lookup_insert_ne by done. rewrite lookup_insert_eq.
  do 3 rewrite lookup_insert_ne by done. rewrite lookup_insert_eq.
  cbn [reload_bool reload_string]. by destruct (reload_slice (Some jl)).
Qed.

(** C5, as the code has it. The map that [ToMap] returns has the four
    keys enableadmincommand, enableonupdate, pluginadmins and links and
    no other, so none for the admin set. [ToMap] followed by the reload
    succeeds exactly when every rule has a JSON form that decodes. When
    the text of [PluginAdmins] is valid UTF-8, what comes back has
    [EnableAdminCommand], [EnableOnUpdate] and [PluginAdmins] as they
    were, an empty admin set, and as [Links] a nil list for a nil list
    and else, rule by rule and in order, what the JSON form of each rule
    decodes to; so [Links] comes back as it was when each rule decodes
    to itself. *)
Theorem ToMap_round_trip (conf : Config) :
  (forall m, ToMap conf = Ok m ->
     dom m = {["enableadmincommand"; "enableonupdate"; "pluginadmins"; "links"]}
     /\ m !! "AdminUserIds" = None)
  /\ (is_Some (round_trip conf)
      <-> Forall (fun l => exists j l', MarshalLink l = Ok j /\ UnmarshalLink j = Some l')
            (elems (Links conf)))
  /\ (ValidUTF8 (PluginAdmins conf) ->
      forall c', round_trip conf = Some c' ->
        EnableAdminCommand c' = EnableAdminCommand conf
        /\ EnableOnUpdate c' = EnableOnUpdate conf
        /\ PluginAdmins c' = PluginAdmins conf
        /\ AdminUserIds c' = ∅
        /\ (Links c' = nil_slice <-> Links conf = nil_slice)
        /\ Forall2 (fun l l' => exists j, MarshalLink l = Ok j /\ UnmarshalLink j = Some l')
             (elems (Links conf)) (elems (Links c')))
  /\ (ValidUTF8 (PluginAdmins conf) ->
      Forall reloads (elems (Links conf)) ->
      round_trip conf = Some (set_AdminUserIds conf ∅)).
Proof.
  split; [|split; [|split]].
  - intros m Hm. pose proof (ToMap_keys conf m Hm) as Hdom. split; [exact Hdom|].
    apply not_elem_of_dom. rewrite Hdom. set_solver.
  - rewrite round_trip_unfold. destruct (Links conf) as [|ls]; cbn.
    + split; [constructor | eauto].
    + rewrite <- links_round_trip_succeeds.
      destruct (marshal_links ls) as [js|e] eqn:Hjs; cbn.
      * destruct (reload_links js) as [ls'|] eqn:Hls'.
        -- split; eauto.
        -- split; [by intros [? ?]|]. intros (js0 & ls' & [= <-] & Hr). congruence.
      * split; [by intros [? ?]|]. by intros (js0 & ls' & ? & _).
  - intros Hutf c'. rewrite round_trip_unfold.
    unfold ValidUTF8 in Hutf. rewrite !Hutf.
    destruct (Links conf) as [|ls] eqn:Hlinks; cbn.
    + intros [= <-]. cbn. repeat split; auto; constructor.
    + destruct (marshal_links ls) as [js|e] eqn:Hjs; [|done]. cbn.
      destruct (reload_links js) as [ls'|] eqn:Hls'; [|done].
      intros [= <-]. cbn. repeat split; try done.
      by eapply links_round_trip.
  - intros Hutf Hlinks. rewrite round_trip_unfold.
    assert (Hs : exists jl, marshal_slice (Links conf) = Ok jl
                            /\ reload_slice (Some jl) = Some (Links conf)).
    { destruct (Links conf) as [|ls]; cbn in *.
      - by exists JNull.
      - destruct (marshal_links_reload ls Hlinks) as (js & Hms & Hus).
        exists (JArray js). cbn. by rewrite Hms, Hus. }
    destruct Hs as (jl & Hms & Hrs). rewrite Hms, Hrs.
    unfold ValidUTF8 in Hutf. rewrite !Hutf.
    by destruct conf.
Qed.

(** *** [Sorted] *)

Lemma Sorted_run (conf : ptr) (w : World) (c : Config) :
  heap w !! conf = Some c ->
  Sorted conf w =
    Some (conf, written w conf
                  (set_Links c (mk_slice (sort_Slice lessByDisplayName (elems (Links c)))))).
Proof.
  intros H. unfold Sorted, bind, deref, assign, ret. rewrite !H. cbn.
  unfold written.
  repeat (rewrite ?lookup_insert_eq, ?insert_insert_eq; cbn).
  reflexivity.
Qed.

(** *** [SaveLinks] *)

Lemma SaveLinks_unfold (p : Plugin) (links : slice Autolink) (w : World) (old : Config) :
  heap w !! conf p = Some old ->
  SaveLinks p links w = persist p (written w (conf p) (set_Links old links)).
Proof.
  intros Hold.
  exact (bind_run _ (fun _ => persist p) w _ tt
           (UpdateConfig_run p (fun c => set_Links c links) w old Hold)).
Qed.

Lemma persist_unfold (p : Plugin) (w : World) (c : Config) :
  heap w !! conf p = Some c ->
  persist p w =
    match ToMap c with
    | Err err => Some (Some (Wrap err "unable convert config to map"), w)
    | Ok configMap =>
      let '(appErr, h') := SavePluginConfig configMap (host w) in
      Some (match appErr with
            | Some e => Some (Wrap e "unable to save links")
            | None => None
            end,
            {| heap := heap w; host := h';
               trace := trace w ++ [EvSavePluginConfig configMap appErr];
               goroutines := goroutines w |})
    end.
Proof.
  intros Hc. unfold persist, getConfig, bind, ret, deref. rewrite Hc.
  destruct (ToMap c) as [m|e]; [|done].
  unfold call. destruct (SavePluginConfig m (host w)) as [[e|] h']; done.
Qed.

(** C7. [SaveLinks] first stores the slice it was given, as it is, in
    the configuration: in the world [w1] that [UpdateConfig] leaves,
    where no call to the host has been made yet, [Get()] returns the old
    configuration with [Links] replaced by that slice. The rest of
    [SaveLinks] runs from that world: when [ToMap] fails with [e] the
    result is [e] wrapped with "unable convert config to map" and the
    host is not called; otherwise the host is given the map of the
    configuration that holds the new slice, and when its
    [SavePluginConfig] fails with [e] the result is [e] wrapped with
    "unable to save links", else nil. *)
Theorem SaveLinks_sets_links_first
    (p : Plugin) (links : slice Autolink) (w : World) (old : Config) :
  heap w !! conf p = Some old ->
  let w1 := written w (conf p) (set_Links old links) in
  UpdateConfig p (fun c => set_Links c links) w = Some (tt, w1)
  /\ trace w1 = trace w /\ host w1 = host w
  /\ Get p w1 = Some (set_Links old links, w1)
  /\ Links (set_Links old links) = links
  /\ SaveLinks p links w = persist p w1
  /\ (forall e, ToMap (set_Links old links) = Err e ->
        SaveLinks p links w = Some (Some (Wrap e "unable convert config to map"), w1))
  /\ (forall m appErr h', ToMap (set_Links old links) = Ok m ->
        SavePluginConfig m (host w) = (appErr, h') ->
        SaveLinks p links w =
          Some (match appErr with
                | Some e => Some (Wrap e "unable to save links")
                | None => None
                end,
                {| heap := heap w1; host := h';
                   trace := trace w ++ [EvSavePluginConfig m appErr];
                   goroutines := goroutines w |})).
Proof.
  intros Hold w1.
  assert (Hcell : heap w1 !! conf p = Some (set_Links old links))
    by (cbn; apply lookup_insert_eq).
  pose proof (SaveLinks_unfold p links w old Hold) as Hsave. fold w1 in Hsave.
  split; [exact (UpdateConfig_run p (fun c => set_Links c links) w old Hold)|].
  do 2 (split; [reflexivity|]).
  split; [apply Get_run, Hcell|].
  split; [reflexivity|]. split; [exact Hsave|]. split.
  - intros e He. rewrite Hsave, (persist_unfold p w1 _ Hcell). by rewrite He.
  - intros m appErr h' Hm Hhost.
    rewrite Hsave, (persist_unfold p w1 _ Hcell), Hm.
    cbn [host w1 written]. by rewrite Hhost.
Qed.

(** C10. When the host's [SavePluginConfig] fails, [SaveLinks] returns
    the wrapped error and the configuration keeps the slice it was
    given: [Get()] and [GetLinks()] after the failed call return the new
    rules. *)
Theorem SaveLinks_failure_keeps_links
    (p : Plugin) (links : slice Autolink) (w : World) (old : Config)
    (m : gmap string json) (e : error) (h' : Host) :
  heap w !! conf p = Some old ->
  ToMap (set_Links old links) = Ok m ->
  SavePluginConfig m (host w) = (Some e, h') ->
  exists w',
    SaveLinks p links w = Some (Some (Wrap e "unable to save links"), w')
    /\ Get p w' = Some (set_Links old links, w')
    /\ GetLinks p w' = Some (links, w').
Proof.
  intros Hold Hm Hhost.
  assert (Hcell : heap (written w (conf p) (set_Links old links)) !! conf p
                  = Some (set_Links old links))
    by (cbn; apply lookup_insert_eq).
  eexists. split.
  - rewrite (SaveLinks_unfold p links w old Hold), (persist_unfold p _ _ Hcell), Hm.
    cbn [host written]. rewrite Hhost. reflexivity.
  - split.
    + apply Get_run. exact Hcell.
    + unfold GetLinks, bind, deref, ret. cbn [heap written] in *. by rewrite Hcell.
Qed.

(** *** The goroutine *)

(** C8, as the code has it. When the load succeeds,
    [OnConfigurationChange] returns nil with the new configuration
    [c1] stored and one goroutine started, before that goroutine has
    called the host. Whenever the goroutine runs, it makes one call,
    [RegisterCommand] or [UnregisterCommand] as [EnableAdminCommand]
    says, drops what the call returns, writes no line to the log and
    leaves every configuration cell as it finds it. *)
Theorem registration_result_is_dropped
    (p : Plugin) (w : World) (c old : Config) (h' : Host) :
  LoadPluginConfiguration (host w) = (Ok c, h') ->
  heap w !! conf p = Some old ->
  exists w1 c1,
    OnConfigurationChange p w = Some (None, w1)
    /\ Get p w1 = Some (c1, w1)
    /\ goroutines w1 = goroutines w ++ [c1]
    /\ EnableAdminCommand c1 = EnableAdminCommand c
    /\ Forall (fun ev => is_registration ev = false) (drop (length (trace w)) (trace w1))
    /\ forall wl : World, exists w2 ev,
         registration c1 wl = Some (tt, w2)
         /\ heap w2 = heap wl
         /\ trace w2 = trace wl ++ [ev]
         /\ is_registration ev = true
         /\ is_log ev = false
         /\ (ev = EvRegisterCommand autolinkCommand (RegisterCommand autolinkCommand (host wl)).1
               /\ EnableAdminCommand c = true
             \/ ev = EvUnregisterCommand EmptyString "autolink" (UnregisterCommand EmptyString "autolink" (host wl)).1
               /\ EnableAdminCommand c = false).
Proof.
  intros Hload Hold.
  destruct (OnConfigurationChange_run p w c old h' Hload Hold)
    as (links & ids & w3 & es1 & es2 & Hrun & _ & _ & Ht & Hlog & _ & _ & _ & _ & Hall).
  cbn zeta in Hrun.
  eexists _, (set_AdminUserIds (set_Links c links) ids).
  split; [exact Hrun|]. split; [|split; [|split; [|split]]].
  - apply Get_run. cbn. apply lookup_insert_eq.
  - reflexivity.
  - reflexivity.
  - cbn [trace]. rewrite Ht, drop_app_length.
    constructor; [done|]. apply Forall_app. split.
    + eapply Forall_impl; [exact Hlog|]. by intros [] ?.
    + eapply Forall_impl; [exact Hall|]. by intros [] ?.
  - intros wl. unfold registration. cbn [EnableAdminCommand set_AdminUserIds set_Links].
    destruct (EnableAdminCommand c); unfold bind, call, ret.
    + destruct (RegisterCommand autolinkCommand (host wl)) as [r h2] eqn:Hr.
      eexists _, _. repeat split; auto.
    + destruct (UnregisterCommand EmptyString "autolink" (host wl)) as [r h2] eqn:Hr.
      eexists _, _. repeat split; auto.
Qed.

End Proofs.

(** * The theorems on the sample host *)

Section OnTheSample.
Local Existing Instance Sample.rules.
Local Existing Instance Sample.api.
Local Existing Instance Sample.sorter.

(** C1 on the sample host whose load fails. *)
Lemma OnConfigurationChange_load_error_witness :
  LoadPluginConfiguration (host Sample.w_load_error)
    = (Err Sample.load_failed, host Sample.w_load_error)
  /\ OnConfigurationChange Sample.plugin Sample.w_load_error
     = Some (Some (Wrap Sample.load_failed "failed to load plugin configuration"),
             {| heap := heap Sample.w_load_error; host := host Sample.w_load_error;
                trace := [EvLoadPluginConfiguration (Err Sample.load_failed)];
                goroutines := [] |}).
Proof.
  split; [reflexivity|].
  apply (OnConfigurationChange_load_error Sample.plugin Sample.w_load_error
           Sample.load_failed (host Sample.w_load_error)).
  reflexivity.
Defined.

(** C2 on the sample host: the second of the three loaded rules does not compile. *)
Lemma OnConfigurationChange_compile_errors_not_fatal_witness :
  exists w' c',
    OnConfigurationChange Sample.plugin Sample.w_ok = Some (None, w')
    /\ Get Sample.plugin w' = Some (c', w')
    /\ EnableAdminCommand c' = EnableAdminCommand Sample.c_new
    /\ EnableOnUpdate c' = EnableOnUpdate Sample.c_new
    /\ PluginAdmins c' = PluginAdmins Sample.c_new
    /\ elems (Links c') = map (fun l => (Compile l).1) (elems (Links Sample.c_new))
    /\ len (Links c') = len (Links Sample.c_new)
    /\ length (filter (fun ev => is_error_log ev = true) (trace w'))
       = length (filter (fun ev => is_error_log ev = true) (trace Sample.w_ok))
         + length (compile_failures (elems (Links Sample.c_new))).
Proof.
  apply (OnConfigurationChange_compile_errors_not_fatal Sample.plugin Sample.w_ok
           Sample.c_new Sample.c_old (host Sample.w_ok)); reflexivity.
Defined.

(** C3 on the sample host, which knows u1 and u3 and not u2. *)
Lemma parsePluginAdminList_resolves_witness :
  exists c' w',
    parsePluginAdminList Sample.c_new Sample.w_ok = Some (c', w')
    /\ AdminUserIds c' = {["u1"; "u3"]}
    /\ (forall x, x ∈ AdminUserIds c' <-> x = "u1" \/ x = "u3").
Proof.
  apply (proj2 (parsePluginAdminList_resolves Sample.c_new Sample.w_ok)).
  - reflexivity.
  - intros h. reflexivity.
  - intros h. vm_compute. eauto.
  - intros h. reflexivity.
Defined.

(** C4, as the specification has it, fails: for the raw list "u1, ,u3"
    the token between the commas is empty after trimming and [GetUser]
    is called with it all the same. *)
Lemma parsePluginAdminList_looks_up_empty_token :
  option_map (fun r => lookups (trace r.2))
    (parsePluginAdminList (Sample.config false "u1, ,u3" nil_slice) Sample.w_ok)
  = Some ["u1"; EmptyString; "u3"].
Proof. vm_compute. reflexivity. Qed.

(** C5, as the specification has it, fails: a [PluginAdmins] that holds
    the single byte FF, which is not valid UTF-8, comes back from the
    round trip as the three bytes of U+FFFD. *)
Lemma ToMap_round_trip_changes_invalid_text :
  PluginAdmins (Sample.config false (of_bytes [255]) nil_slice) = of_bytes [255]
  /\ option_map PluginAdmins (round_trip (Sample.config false (of_bytes [255]) nil_slice))
     = Some (of_bytes [239; 191; 189]).
Proof. split; vm_compute; reflexivity. Qed.

(** On the sample host, what [OnConfigurationChange] stores is
    [Sample.c_stored]. *)
Example OnConfigurationChange_stores :
  option_map (fun r => heap r.2 !! conf Sample.plugin)
    (OnConfigurationChange Sample.plugin Sample.w_ok)
  = Some (Some Sample.c_stored).
Proof. reflexivity. Qed.

(** C5 on the configuration that [OnConfigurationChange] stores on the
    sample host: the three other fields come back as they were, the
    admin set empty, and the rules as their JSON forms decode, which is
    without the state that [Compile] left. *)
Lemma ToMap_round_trip_witness :
  ValidUTF8 (PluginAdmins Sample.c_stored)
  /\ round_trip Sample.c_stored = Some Sample.c_new
  /\ EnableAdminCommand Sample.c_new = EnableAdminCommand Sample.c_stored
  /\ EnableOnUpdate Sample.c_new = EnableOnUpdate Sample.c_stored
  /\ PluginAdmins Sample.c_new = PluginAdmins Sample.c_stored
  /\ AdminUserIds Sample.c_new = ∅
  /\ (Links Sample.c_new = nil_slice <-> Links Sample.c_stored = nil_slice)
  /\ Forall2 (fun l l' => exists j, MarshalLink l = Ok j /\ UnmarshalLink j = Some l')
       (elems (Links Sample.c_stored)) (elems (Links Sample.c_new)).
Proof.
  assert (Hutf : ValidUTF8 (PluginAdmins Sample.c_stored)) by reflexivity.
  assert (Hrt : round_trip Sample.c_stored = Some Sample.c_new) by reflexivity.
  split; [exact Hutf|]. split; [exact Hrt|].
  destruct (ToMap_round_trip Sample.c_stored) as (_ & _ & Hfields & _).
  exact (Hfields Hutf Sample.c_new Hrt).
Defined.

(** C6 fails on the code: [Sorted] returns the pointer it was given, and
    the configuration behind that pointer, the source, ends with its
    rules in the order of their names. Here cell 1 holds the rules b, a;
    after [Sorted] the pointer returned is 1 and cell 1 holds a, b. *)
Theorem Sorted_overwrites_its_source :
  Links <$> heap (Sample.world (Sample.script (Ok Sample.c_new) None None)
                    (Sample.config false EmptyString Sample.unsorted)) !! 1
    = Some (mk_slice [Sample.rule "b" "x"; Sample.rule "a" "y"])
  /\ option_map (fun r => (r.1, Links <$> heap r.2 !! 1))
       (Sorted 1 (Sample.world (Sample.script (Ok Sample.c_new) None None)
                    (Sample.config false EmptyString Sample.unsorted)))
     = Some (1, Some (mk_slice [Sample.rule "a" "y"; Sample.rule "b" "x"])).
Proof. split; vm_compute; reflexivity. Qed.

(** C7 on the sample host: once with a host whose save fails, once with
    a rule that has no JSON form. *)
Lemma SaveLinks_sets_links_first_witness :
  heap Sample.w_save_error !! conf Sample.plugin = Some Sample.c_old
  /\ Get Sample.plugin
       (written Sample.w_save_error (conf Sample.plugin) (set_Links Sample.c_old Sample.unsorted))
     = Some (set_Links Sample.c_old Sample.unsorted,
             written Sample.w_save_error (conf Sample.plugin)
               (set_Links Sample.c_old Sample.unsorted))
  /\ option_map fst (SaveLinks Sample.plugin Sample.unsorted Sample.w_save_error)
     = Some (Some (Wrap Sample.save_failed "unable to save links"))
  /\ SaveLinks Sample.plugin Sample.unencodable Sample.w_ok
     = Some (Some (Wrap (NewError "json: unsupported value") "unable convert config to map"),
             written Sample.w_ok (conf Sample.plugin)
               (set_Links Sample.c_old Sample.unencodable)).
Proof.
  assert (H : heap Sample.w_save_error !! conf Sample.plugin = Some Sample.c_old)
    by reflexivity.
  split; [exact H|].
  destruct (SaveLinks_sets_links_first Sample.plugin Sample.unsorted
              Sample.w_save_error Sample.c_old H)
    as (_ & _ & _ & Hget & _ & _ & _ & Hsave).
  split; [exact Hget|]. split.
  - erewrite (Hsave _ (Some Sample.save_failed) (host Sample.w_save_error)); reflexivity.
  - destruct (SaveLinks_sets_links_first Sample.plugin Sample.unencodable
                Sample.w_ok Sample.c_old eq_refl)
      as (_ & _ & _ & _ & _ & _ & Hmarshal & _).
    apply Hmarshal. reflexivity.
Defined.

(** C10 on the sample host whose save fails. *)
Lemma SaveLinks_failure_keeps_links_witness :
  exists w',
    SaveLinks Sample.plugin Sample.unsorted Sample.w_save_error
    = Some (Some (Wrap Sample.save_failed "unable to save links"), w')
    /\ Get Sample.plugin w' = Some (set_Links Sample.c_old Sample.unsorted, w')
    /\ GetLinks Sample.plugin w' = Some (Sample.unsorted, w').
Proof.
  eapply (SaveLinks_failure_keeps_links Sample.plugin Sample.unsorted Sample.w_save_error
            Sample.c_old _ Sample.save_failed (host Sample.w_save_error));
    reflexivity.
Defined.

(** C8, as the specification has it, fails: here [RegisterCommand]
    returns an error, and the calls made to the host by
    [OnConfigurationChange] and by its goroutine are the load and the
    registration: nothing is written to the log. *)
Lemma registration_failure_is_not_logged :
  option_map (fun r => (r.1, trace r.2, filter (fun ev => is_log ev = true) (trace r.2)))
    (bind (OnConfigurationChange Sample.plugin)
          (fun r => bind run_goroutines (fun _ => ret r)) Sample.w_register_error_plain)
  = Some (None,
          [EvLoadPluginConfiguration (Ok Sample.c_plain);
           EvRegisterCommand autolinkCommand (Some Sample.register_failed)],
          []).
Proof. reflexivity. Qed.

(** C8 on the sample host whose registration fails. *)
Lemma registration_result_is_dropped_witness :
  exists w1 c1,
    OnConfigurationChange Sample.plugin Sample.w_register_error = Some (None, w1)
    /\ Get Sample.plugin w1 = Some (c1, w1)
    /\ goroutines w1 = [c1]
    /\ EnableAdminCommand c1 = true
    /\ exists w2 ev,
         registration c1 w1 = Some (tt, w2)
         /\ heap w2 = heap w1
         /\ trace w2 = trace w1 ++ [ev]
         /\ is_registration ev = true
         /\ is_log ev = false.
Proof.
  destruct (registration_result_is_dropped Sample.plugin Sample.w_register_error
              Sample.c_new Sample.c_old (host Sample.w_register_error)
              eq_refl eq_refl)
    as (w1 & c1 & Hrun & Hget & Hgo & Hen & _ & Hlater).
  exists w1, c1. repeat split; auto.
  destruct (Hlater w1) as (w2 & ev & Hreg & Hheap & Htr & Hr & Hl & _).
  exists w2, ev. repeat split; auto.
Defined.

End OnTheSample.

(** * Further properties of the code *)

(** ** Insertion sort and the order of display names *)

Lemma sift_down_perm {A} (less : A -> A -> bool) (x : A) (rprefix : list A) :
  sift_down less x rprefix ≡ₚ x :: rprefix.
Proof.
  induction rprefix as [|y rest IH]; cbn; [done|].
  destruct (less x y); [|done].
  rewrite IH. apply Permutation_swap.
Qed.

Lemma sift_down_head {A} (less : A -> A -> bool) (x : A) (rprefix : list A) :
  head (sift_down less x rprefix) = Some x
  \/ (head (sift_down less x rprefix) = head rprefix /\ rprefix <> []).
Proof.
  destruct rprefix as [|y rest]; cbn; [by left|].
  destruct (less x y); [by right | by left].
Qed.

Lemma adjacent_cons {A} (R : A -> A -> Prop) (a : A) (l : list A) :
  adjacent R (a :: l) <-> (forall b, head l = Some b -> R a b) /\ adjacent R l.
Proof.
  destruct l as [|b l]; cbn.
  - split; [intros _; split; [done|exact I] | auto].
  - split.
    + intros [H1 H2]. split; [by intros ? [= <-] | exact H2].
    + intros [H1 H2]. split; [by apply H1 | exact H2].
Qed.

Lemma sift_down_descending {A} (less : A -> A -> bool) (x : A) (rprefix : list A) :
  (forall a b, less a b = true -> less b a = false) ->
  adjacent (fun a b => less a b = false) rprefix ->
  adjacent (fun a b => less a b = false) (sift_down less x rprefix).
Proof.
  intros Hasym. induction rprefix as [|y rest IH]; intros Hd.
  - cbn. auto.
  - cbn [sift_down]. destruct (less x y) eqn:Hxy.
    + apply adjacent_cons in Hd as [Hhd Hrest].
      apply adjacent_cons. split; [|by apply IH].
      intros b Hb. destruct (sift_down_head less x rest) as [Hx|[Hsame _]].
      * rewrite Hx in Hb. injection Hb as <-. by apply Hasym.
      * rewrite Hsame in Hb. by apply Hhd.
    + apply adjacent_cons. split; [|exact Hd].
      by intros b [= <-].
Qed.

Lemma adjacent_snoc {A} (R : A -> A -> Prop) (l : list A) (x : A) :
  adjacent R (l ++ [x]) <-> adjacent R l /\ (forall y, last l = Some y -> R y x).
Proof.
  induction l as [|a l IH].
  - cbn. split; [intros _; split; [exact I|done] | intros _; split; exact I].
  - rewrite <- app_comm_cons, !adjacent_cons, IH.
    destruct l as [|b l].
    + cbn. split.
      * intros [H1 _]. split; [split; [done|exact I]|]. intros y [= <-]. by apply H1.
      * intros [_ H2]. split; [|split; [exact I|done]]. intros b [= <-]. by apply H2.
    + cbn [app head]. rewrite last_cons_cons. tauto.
Qed.

Lemma adjacent_rev {A} (R : A -> A -> Prop) (l : list A) :
  adjacent (fun a b => R b a) l -> adjacent R (rev l).
Proof.
  induction l as [|a l IH]; [done|].
  intros [Hhd Hrest]%adjacent_cons. cbn [rev].
  apply adjacent_snoc. split; [by apply IH|].
  intros y Hy. apply Hhd. rewrite <- Hy.
  clear. destruct l as [|b l]; [done|].
  cbn [rev head]. by rewrite last_snoc.
Qed.

(** The insertion sort meets the promise of [sort.Slice]. *)
Lemma insertionSort_sorts : sorts (@insertionSort).
Proof.
  intros A less l (Hirr & Htrans & _).
  assert (Hasym : forall a b, less a b = true -> less b a = false).
  { intros a b Hab. destruct (less b a) eqn:Hba; [|done].
    by rewrite <- (Hirr a), (Htrans a b a Hab Hba). }
  unfold sort_Slice, insertionSort.
  assert (Hgen : forall acc,
             adjacent (fun a b => less a b = false) acc ->
             fold_left (fun rprefix x => sift_down less x rprefix) l acc ≡ₚ l ++ acc
             /\ adjacent (fun a b => less a b = false)
                  (fold_left (fun rprefix x => sift_down less x rprefix) l acc)).
  { induction l as [|x l IH]; intros acc Hacc; cbn [fold_left].
    - by split.
    - destruct (IH (sift_down less x acc)) as [Hp Hd].
      { by apply sift_down_descending. }
      split; [|exact Hd]. rewrite Hp, sift_down_perm. cbn.
      by rewrite Permutation_middle. }
  destruct (Hgen []) as [Hp Hd]; [exact I|].
  split.
  - rewrite <- Permutation_rev. by rewrite Hp, app_nil_r.
  - unfold ordered. apply adjacent_rev. exact Hd.
Qed.

Lemma compare_lt_trans (a b c : string) :
  String.compare a b = Lt -> String.compare b c = Lt -> String.compare a c = Lt.
Proof.
  revert b c. induction a as [|x a IH]; intros [|y b] [|z c]; cbn; try done.
  unfold Ascii.compare.
  destruct (N.compare_spec (N_of_ascii x) (N_of_ascii y)) as [Hxy|Hxy|Hxy]; try done;
    destruct (N.compare_spec (N_of_ascii y) (N_of_ascii z)) as [Hyz|Hyz|Hyz]; try done;
    intros H1 H2.
  - rewrite Hxy, Hyz, N.compare_refl. by apply (IH b).
  - rewrite Hxy. by apply N.compare_lt_iff in Hyz as ->.
  - rewrite <- Hyz. by apply N.compare_lt_iff in Hxy as ->.
  - assert (Hxz : (N_of_ascii x < N_of_ascii z)%N) by (by etrans).
    by apply N.compare_lt_iff in Hxz as ->.
Qed.

Lemma Compare_lt_strict_weak : strict_weak_order Compare_lt.
Proof.
  assert (Hrefl : forall a, String.compare a a = Eq).
  { induction a as [|x a IH]; cbn; [done|].
    unfold Ascii.compare. by rewrite N.compare_refl. }
  assert (Hge : forall a b, Compare_lt a b = false -> a = b \/ String.compare b a = Lt).
  { unfold Compare_lt. intros a b H.
    destruct (String.compare a b) eqn:Hab; [left | done | right].
    - by apply String.compare_eq_iff.
    - by rewrite String.compare_antisym, Hab. }
  split; [|split].
  - intros a. unfold Compare_lt. by rewrite Hrefl.
  - unfold Compare_lt. intros a b c Hab Hbc.
    destruct (String.compare a b) eqn:H1; try done.
    destruct (String.compare b c) eqn:H2; try done.
    by rewrite (compare_lt_trans a b c H1 H2).
  - intros a b c Hab Hbc.
    destruct (Hge a b Hab) as [->|Hba]; [done|].
    destruct (Hge b c Hbc) as [<-|Hcb]; [done|].
    pose proof (compare_lt_trans c b a Hcb Hba) as Hca.
    unfold Compare_lt. by rewrite String.compare_antisym, Hca.
Qed.

Section MoreProofs.
Context {ops : LinkOps} {api : PluginAPI} {sorter : Sorter}.

Lemma lessByDisplayName_strict_weak : strict_weak_order lessByDisplayName.
Proof.
  destruct Compare_lt_strict_weak as (Hirr & Htrans & Hneg).
  unfold lessByDisplayName. split; [|split].
  - intros a. apply Hirr.
  - intros a b c. apply Htrans.
  - intros a b c. apply Hneg.
Qed.

(** ** [Sorted] *)

(** X1. [Sorted] works in place: when [conf] points to a configuration it
    returns [conf] itself, and of the whole world only the [Links] of that
    one cell may differ afterwards; they are never nil, even when they
    were nil before. *)
Theorem Sorted_in_place (conf : ptr) (w : World) (c : Config) :
  heap w !! conf = Some c ->
  exists w' c',
    Sorted conf w = Some (conf, w')
    /\ heap w' !! conf = Some c'
    /\ EnableAdminCommand c' = EnableAdminCommand c
    /\ EnableOnUpdate c' = EnableOnUpdate c
    /\ PluginAdmins c' = PluginAdmins c
    /\ AdminUserIds c' = AdminUserIds c
    /\ Links c' <> nil_slice
    /\ (forall q, q <> conf -> heap w' !! q = heap w !! q)
    /\ host w' = host w /\ trace w' = trace w /\ goroutines w' = goroutines w.
Proof.
  intros Hc. eexists _, _. split; [exact (Sorted_run conf w c Hc)|].
  cbn. split; [apply lookup_insert_eq|].
  repeat split; try done.
  intros q Hq. by apply lookup_insert_ne.
Qed.

(** X2. With a [sort.Slice] that keeps its promise, [Sorted] leaves in the
    cell of [conf] the same rules as before, each as often as before, in
    an order in which no rule's display name is smaller, byte by byte,
    than the display name of the rule before it. *)
Theorem Sorted_orders_by_display_name (conf : ptr) (w : World) (c : Config) :
  sorts sorter ->
  heap w !! conf = Some c ->
  exists w' c',
    Sorted conf w = Some (conf, w')
    /\ heap w' !! conf = Some c'
    /\ elems (Links c') ≡ₚ elems (Links c)
    /\ adjacent (fun a b => Compare_lt (DisplayName b) (DisplayName a) = false)
         (elems (Links c')).
Proof.
  intros Hsorts Hc.
  destruct (Hsorts Autolink lessByDisplayName (elems (Links c))
              lessByDisplayName_strict_weak) as [Hperm Hord].
  eexists _, _. split; [exact (Sorted_run conf w c Hc)|].
  cbn. split; [apply lookup_insert_eq|]. cbn. split; [exact Hperm | exact Hord].
Qed.

(** ** A nil [p.conf] *)

(** X3. When [p.conf] is nil, [getConfig] still returns it, and so does
    [OnConfigurationChange] its error when the load fails; [GetLinks],
    [SaveLinks], [Sorted] on that pointer, and [OnConfigurationChange]
    after a successful load all panic. *)
Theorem nil_conf_panics (p : Plugin) (w : World) :
  heap w !! conf p = None ->
  getConfig p w = Some (conf p, w)
  /\ GetLinks p w = None
  /\ (forall links, SaveLinks p links w = None)
  /\ Sorted (conf p) w = None
  /\ (forall c h', LoadPluginConfiguration (host w) = (Ok c, h') ->
        OnConfigurationChange p w = None)
  /\ (forall e h', LoadPluginConfiguration (host w) = (Err e, h') ->
        exists w', OnConfigurationChange p w
                   = Some (Some (Wrap e "failed to load plugin configuration"), w')).
Proof.
  intros Hnil.
  assert (Hup : forall f w', heap w' = heap w -> UpdateConfig p f w' = None).
  { intros f w' Hh. unfold UpdateConfig, bind, deref. by rewrite Hh, Hnil. }
  split; [done|]. split; [|split; [|split; [|split]]].
  - unfold GetLinks, bind, deref. by rewrite Hnil.
  - intros links. unfold SaveLinks. apply bind_panic. by apply Hup.
  - unfold Sorted, bind, deref. by rewrite Hnil.
  - intros c h' Hload.
    set (w1 := {| heap := heap w; host := h';
                  trace := trace w ++ [EvLoadPluginConfiguration (Ok c)];
                  goroutines := goroutines w |}).
    destruct (compileSlice_spec (Links c) w1)
      as (w2 & links & es1 & Hrun1 & [Hh1 _] & _).
    unfold OnConfigurationChange.
    unfold bind at 1. unfold call. rewrite Hload. fold w1.
    rewrite (bind_run _ _ _ _ _ Hrun1).
    destruct (parsePluginAdminList_spec (set_Links c links) w2)
      as (ids & w3 & es2 & Hrun2 & [Hh2 _] & _).
    rewrite (bind_run _ _ _ _ _ Hrun2).
    apply bind_panic. apply Hup. by rewrite Hh2, Hh1.
  - intros e h' Hload. eexists. unfold OnConfigurationChange, bind, call.
    by rewrite Hload.
Qed.

(** ** [UpdateConfig] and the pointer that [getConfig] returns *)

(** X4. Two calls of [UpdateConfig] in a row, with functions that
    rewrite the configuration behind the pointer, do what one call with
    the composed function does. *)
Theorem UpdateConfig_compose (p : Plugin) (f g : Config -> Config) (w : World) :
  bind (UpdateConfig p f) (fun _ => UpdateConfig p g) w
  = UpdateConfig p (fun c => g (f c)) w.
Proof.
  unfold UpdateConfig, bind, deref, assign.
  destruct (heap w !! conf p) as [c|] eqn:Hc; rewrite ?Hc; [|done].
  cbn. repeat (rewrite ?lookup_insert_eq, ?insert_insert_eq; cbn). reflexivity.
Qed.

(** X5. The pointer that [getConfig] returns is the live cell, not a
    copy: read after a later [SaveLinks] it shows the new rules, and read
    after a later successful [OnConfigurationChange] it shows the
    configuration that was loaded. *)
Theorem getConfig_pointer_is_live
    (p : Plugin) (links : slice Autolink) (w : World) (old c : Config) (h' : Host) :
  heap w !! conf p = Some old ->
  LoadPluginConfiguration (host w) = (Ok c, h') ->
  (exists w',
     bind (getConfig p) (fun q => bind (SaveLinks p links) (fun _ => deref q)) w
     = Some (set_Links old links, w'))
  /\ (exists w' c',
        bind (getConfig p) (fun q => bind (OnConfigurationChange p) (fun _ => deref q)) w
        = Some (c', w')
        /\ PluginAdmins c' = PluginAdmins c
        /\ EnableAdminCommand c' = EnableAdminCommand c
        /\ len (Links c') = len (Links c)).
Proof.
  intros Hold Hload. split.
  - unfold getConfig. unfold bind at 1. unfold ret.
    assert (Hcell : heap (written w (conf p) (set_Links old links)) !! conf p
                    = Some (set_Links old links))
      by (cbn; apply lookup_insert_eq).
    unfold bind at 1.
    rewrite (SaveLinks_unfold p links w old Hold), (persist_unfold p _ _ Hcell).
    destruct (ToMap (set_Links old links)) as [m|e].
    + cbn [host written]. destruct (SavePluginConfig m (host w)) as [r h1].
      eexists. unfold deref. cbn [heap written] in *. by rewrite Hcell.
    + eexists. unfold deref. by rewrite Hcell.
  - destruct (OnConfigurationChange_run p w c old h' Hload Hold)
      as (links' & ids & w3 & es1 & es2 & Hrun & Hel & _).
    cbn zeta in Hrun.
    unfold getConfig. unfold bind at 1. unfold ret.
    rewrite (bind_run _ _ _ _ _ Hrun).
    eexists _, _. split.
    + unfold deref. cbn [heap]. by rewrite lookup_insert_eq.
    + repeat split. unfold len. cbn. by rewrite Hel, length_map.
Qed.

(** ** [OnConfigurationChange], call by call *)

Lemma compileLinks_trace (ls : list Autolink) (w : World) :
  exists w',
    compileLinks ls w = Some (map (fun l => (Compile l).1) ls, w')
    /\ same_memory w w'
    /\ trace w' = trace w ++ compile_log ls.
Proof.
  revert w. induction ls as [|l rest IH]; intros w.
  - exists w. cbn. rewrite app_nil_r. repeat split; auto.
  - cbn [compileLinks map]. unfold compile_log. cbn [flat_map]. fold (compile_log rest).
    destruct (Compile l) as [l' [e|]] eqn:Hc; cbn [fst snd].
    + set (kv := [LogString "link"; LogLink l'; LogString "error"; LogString (ErrorText e)]).
      set (w1 := {| heap := heap w; host := LogError "Error creating autolinker" kv (host w);
                    trace := trace w ++ [EvLogError "Error creating autolinker" kv];
                    goroutines := goroutines w |}).
      destruct (IH w1) as (w' & Hrun & [Hh Hg] & Ht).
      exists w'. unfold bind, call_. fold w1. unfold bind in Hrun. rewrite Hrun. cbn.
      repeat split; auto. rewrite Ht. cbn. by rewrite <- app_assoc.
    + destruct (IH w) as (w' & Hrun & Hm & Ht).
      exists w'. unfold bind, ret. unfold bind in Hrun. rewrite Hrun. cbn.
      repeat split; try apply Hm; auto.
Qed.

Lemma compile_log_errors (ls : list Autolink) :
  filter (fun ev => is_error_log ev = true) (compile_log ls) = compile_log ls
  /\ filter (fun ev => is_registration ev = true) (compile_log ls) = [].
Proof.
  unfold compile_log. induction ls as [|l rest [IH1 IH2]]; [done|].
  cbn [flat_map]. rewrite !filter_app, IH1, IH2.
  destruct (Compile l).2; done.
Qed.

Lemma lookups_no_other (es : list Event) :
  Forall (fun ev => is_lookup_or_warning ev = true) es ->
  filter (fun ev => is_error_log ev = true) es = []
  /\ filter (fun ev => is_registration ev = true) es = [].
Proof.
  induction 1 as [|ev es Hev _ [IH1 IH2]]; [done|].
  rewrite !filter_cons, IH1, IH2. by destruct ev.
Qed.

Lemma found_elem (es : list Event) (x : string) :
  x ∈ found es <-> EvGetUser x None ∈ es.
Proof.
  unfold found. rewrite list_elem_of_omap. split.
  - intros (ev & Hin & Hev). destruct ev as [| id [e|] | | | | |]; try done.
    by injection Hev as ->.
  - intros Hin. by exists (EvGetUser x None).
Qed.

Lemma found_lookups (es : list Event) (x : string) :
  x ∈ found es -> x ∈ lookups es.
Proof.
  unfold found, lookups. rewrite !list_elem_of_omap.
  intros (ev & Hin & Hev). exists ev. split; [done|].
  by destruct ev as [| id [e|] | | | | |].
Qed.

(** The whole of a successful [OnConfigurationChange]. *)
Lemma OnConfigurationChange_full (p : Plugin) (w : World) (c old : Config) (h' : Host) :
  LoadPluginConfiguration (host w) = (Ok c, h') ->
  heap w !! conf p = Some old ->
  exists links ids h3 es2,
    let c' := set_AdminUserIds (set_Links c links) ids in
    OnConfigurationChange p w =
      Some (None, {| heap := <[conf p := c']> (heap w); host := h3;
                     trace := trace w ++ [EvLoadPluginConfiguration (Ok c)]
                                ++ compile_log (elems (Links c)) ++ es2;
                     goroutines := goroutines w ++ [c'] |})
    /\ elems links = map (fun l => (Compile l).1) (elems (Links c))
    /\ lookups es2 = admin_tokens (PluginAdmins c)
    /\ ids = list_to_set (found es2)
    /\ Forall (fun ev => is_lookup_or_warning ev = true) es2.
Proof.
  intros Hload Hold.
  set (w1 := {| heap := heap w; host := h';
                trace := trace w ++ [EvLoadPluginConfiguration (Ok c)];
                goroutines := goroutines w |}).
  assert (Hc : exists w2 links,
             compileSlice (Links c) w1 = Some (links, w2)
             /\ same_memory w1 w2
             /\ elems links = map (fun l => (Compile l).1) (elems (Links c))
             /\ trace w2 = trace w1 ++ compile_log (elems (Links c))).
  { destruct (Links c) as [|ls]; cbn.
    - exists w1, nil_slice. rewrite app_nil_r. repeat split; auto.
    - destruct (compileLinks_trace ls w1) as (w2 & Hrun & Hm & Ht).
      exists w2, (mk_slice (map (fun l => (Compile l).1) ls)).
      unfold bind. rewrite Hrun. by cbn. }
  destruct Hc as (w2 & links & Hrun1 & [Hh1 Hg1] & Hel & Ht1).
  destruct (parsePluginAdminList_spec (set_Links c links) w2)
    as (ids & w3 & es2 & Hrun2 & [Hh2 Hg2] & Ht2 & Hl2 & Hids & _ & Hall2).
  exists links, ids, (host w3), es2. cbn zeta.
  assert (Hold3 : heap w3 !! conf p = Some old) by (rewrite Hh2, Hh1; exact Hold).
  split; [|done].
  unfold OnConfigurationChange.
  unfold bind at 1. unfold call. rewrite Hload. fold w1.
  rewrite (bind_run _ _ _ _ _ Hrun1).
  rewrite (bind_run _ _ _ _ _ Hrun2).
  rewrite (bind_run _ _ _ _ _ (UpdateConfig_run p _ w3 old Hold3)).
  unfold bind, go, ret, written. cbn.
  rewrite Hh2, Hh1, Hg2, Hg1, Ht2, Ht1. cbn. by rewrite <- !app_assoc.
Qed.

(** X6. The error log of a successful [OnConfigurationChange] holds one
    line for each rule that did not compile, in the order of the rules,
    with the rule as [Compile] left it and the text of the error, and no
    other line. *)
Theorem OnConfigurationChange_error_log
    (p : Plugin) (w : World) (c old : Config) (h' : Host) :
  LoadPluginConfiguration (host w) = (Ok c, h') ->
  heap w !! conf p = Some old ->
  exists w',
    OnConfigurationChange p w = Some (None, w')
    /\ filter (fun ev => is_error_log ev = true) (drop (length (trace w)) (trace w'))
       = flat_map (fun l => match (Compile l).2 with
                            | Some e =>
                              [EvLogError "Error creating autolinker"
                                 [LogString "link"; LogLink (Compile l).1;
                                  LogString "error"; LogString (ErrorText e)]]
                            | None => []
                            end) (elems (Links c)).
Proof.
  intros Hload Hold.
  destruct (OnConfigurationChange_full p w c old h' Hload Hold)
    as (links & ids & h3 & es2 & Hrun & _ & _ & _ & Hall).
  cbn zeta in Hrun. eexists. split; [exact Hrun|].
  cbn [trace]. rewrite drop_app_length, !filter_app.
  rewrite (proj1 (compile_log_errors _)), (proj1 (lookups_no_other es2 Hall)).
  cbn. by rewrite app_nil_r.
Qed.

(** X7. The admin set that a successful [OnConfigurationChange] stores
    owes nothing to the configuration it replaces: its members are the
    ids for which [GetUser] returned no error during this call, and each
    of them is a trimmed piece of the [PluginAdmins] just loaded. *)
Theorem OnConfigurationChange_admins_are_fresh
    (p : Plugin) (w : World) (c old : Config) (h' : Host) :
  LoadPluginConfiguration (host w) = (Ok c, h') ->
  heap w !! conf p = Some old ->
  exists w' c',
    OnConfigurationChange p w = Some (None, w')
    /\ Get p w' = Some (c', w')
    /\ (forall x, x ∈ AdminUserIds c'
                  <-> EvGetUser x None ∈ drop (length (trace w)) (trace w'))
    /\ (forall x, x ∈ AdminUserIds c' -> x ∈ admin_tokens (PluginAdmins c)).
Proof.
  intros Hload Hold.
  destruct (OnConfigurationChange_full p w c old h' Hload Hold)
    as (links & ids & h3 & es2 & Hrun & _ & Hl & Hids & Hall).
  cbn zeta in Hrun. eexists _, _. split; [exact Hrun|].
  split; [apply Get_run; cbn; apply lookup_insert_eq|].
  cbn [AdminUserIds set_AdminUserIds trace]. rewrite drop_app_length, Hids. split.
  - intros x. rewrite elem_of_list_to_set, found_elem.
    rewrite !elem_of_app, list_elem_of_singleton. split; [auto|].
    intros [Hx|[Hx|Hx]]; [done| |done].
    exfalso. unfold compile_log in Hx. apply list_elem_of_In, in_flat_map in Hx.
    destruct Hx as (l & _ & Hx). destruct (Compile l).2; [|done].
    by destruct Hx as [Hx|[]].
  - intros x Hx. rewrite <- Hl. apply found_lookups. by apply elem_of_list_to_set in Hx.
Qed.

Lemma run_all_spec (cs : list Config) (w : World) :
  exists w' es,
    run_all cs w = Some (tt, w')
    /\ heap w' = heap w /\ goroutines w' = goroutines w
    /\ trace w' = trace w ++ es
    /\ Forall2 (fun c ev =>
                  if EnableAdminCommand c
                  then exists r, ev = EvRegisterCommand autolinkCommand r
                  else exists r, ev = EvUnregisterCommand EmptyString "autolink" r) cs es.
Proof.
  revert w. induction cs as [|c rest IH]; intros w.
  - exists w, []. cbn. rewrite app_nil_r. repeat split; auto.
  - cbn [run_all]. unfold registration.
    destruct (EnableAdminCommand c) eqn:Hen; unfold bind at 1 2; unfold call, ret.
    + destruct (RegisterCommand autolinkCommand (host w)) as [r h1].
      match goal with |- context [run_all rest ?w1] =>
        destruct (IH w1) as (w' & es & Hrun & Hh & Hg & Ht & Hall) end.
      exists w', (EvRegisterCommand autolinkCommand r :: es). rewrite Hrun.
      repeat split; auto.
      * rewrite Ht. cbn. by rewrite <- app_assoc.
      * constructor; [rewrite Hen; eauto | done].
    + destruct (UnregisterCommand EmptyString "autolink" (host w)) as [r h1].
      match goal with |- context [run_all rest ?w1] =>
        destruct (IH w1) as (w' & es & Hrun & Hh & Hg & Ht & Hall) end.
      exists w', (EvUnregisterCommand EmptyString "autolink" r :: es). rewrite Hrun.
      repeat split; auto.
      * rewrite Ht. cbn. by rewrite <- app_assoc.
      * constructor; [rewrite Hen; eauto | done].
Qed.

(** X8. A successful [OnConfigurationChange] followed by its goroutine
    makes exactly one registration call, the last call of the run:
    [RegisterCommand] of the autolink command when the loaded
    [EnableAdminCommand] is true, [UnregisterCommand] of the trigger
    autolink when it is false. *)
Theorem OnConfigurationChange_registers_once
    (p : Plugin) (w : World) (c old : Config) (h' : Host) :
  LoadPluginConfiguration (host w) = (Ok c, h') ->
  heap w !! conf p = Some old ->
  goroutines w = [] ->
  exists w' ev,
    bind (OnConfigurationChange p) (fun r => bind run_goroutines (fun _ => ret r)) w
    = Some (None, w')
    /\ goroutines w' = []
    /\ filter (fun ev => is_registration ev = true) (drop (length (trace w)) (trace w')) = [ev]
    /\ last (trace w') = Some ev
    /\ (if EnableAdminCommand c
        then exists r, ev = EvRegisterCommand autolinkCommand r
        else exists r, ev = EvUnregisterCommand EmptyString "autolink" r).
Proof.
  intros Hload Hold Hnone.
  destruct (OnConfigurationChange_full p w c old h' Hload Hold)
    as (links & ids & h3 & es2 & Hrun & _ & _ & _ & Hall).
  cbn zeta in Hrun. rewrite Hnone in Hrun. cbn [app] in Hrun.
  rewrite (bind_run _ _ _ _ _ Hrun).
  unfold bind at 1. unfold run_goroutines. cbn [goroutines heap host trace].
  match goal with |- context [run_all ?cs ?w1] =>
    destruct (run_all_spec cs w1) as (w' & es & Hgo & Hh & Hg & Ht & Hev) end.
  rewrite Hgo. unfold ret.
  apply Forall2_cons_inv_l in Hev as (ev & es' & Hev & Hnil & ->).
  apply Forall2_nil_inv_l in Hnil as ->.
  cbn [EnableAdminCommand set_AdminUserIds set_Links] in Hev.
  exists w', ev. split; [done|]. split; [by rewrite Hg|].
  cbn [trace] in Ht. rewrite Ht. split; [|split; [|exact Hev]].
  - rewrite <- !app_assoc, drop_app_length, !filter_app.
    rewrite filter_cons, decide_False by done. rewrite filter_app.
    rewrite (proj2 (compile_log_errors _)), (proj2 (lookups_no_other es2 Hall)).
    cbn. destruct (EnableAdminCommand c); destruct Hev as [r ->]; done.
  - by rewrite last_snoc.
Qed.

(** ** Any sequence of calls *)

Lemma conf_kept_write (p : Plugin) (w w' : World) (c : Config) :
  heap w' = <[conf p := c]> (heap w) -> conf_kept p w w'.
Proof.
  intros H. unfold conf_kept. rewrite H. split; [rewrite lookup_insert_eq; eauto|].
  intros q Hq. by apply lookup_insert_ne.
Qed.

Lemma conf_kept_same (p : Plugin) (w w' : World) :
  is_Some (heap w !! conf p) -> heap w' = heap w -> conf_kept p w w'.
Proof. intros Hs H. unfold conf_kept. rewrite H. by split. Qed.

Lemma run_call_safe (p : Plugin) (c : Call) (w : World) :
  is_Some (heap w !! conf p) ->
  exists w', run_call p c w = Some (tt, w') /\ conf_kept p w w'.
Proof.
  intros [old Hold]. destruct c as [|links| | | |]; cbn [run_call].
  - destruct (LoadPluginConfiguration (host w)) as [[c|e] h'] eqn:Hload.
    + destruct (OnConfigurationChange_full p w c old h' Hload Hold)
        as (links & ids & h3 & es2 & Hrun & _).
      cbn zeta in Hrun. rewrite (bind_run _ _ _ _ _ Hrun).
      eexists. split; [reflexivity|]. by eapply conf_kept_write.
    + eexists. unfold OnConfigurationChange, bind, call, ret. rewrite Hload.
      split; [reflexivity|]. by apply conf_kept_same; [eauto|].
  - assert (Hcell : heap (written w (conf p) (set_Links old links)) !! conf p
                    = Some (set_Links old links))
      by (cbn; apply lookup_insert_eq).
    unfold bind.
    rewrite (SaveLinks_unfold p links w old Hold), (persist_unfold p _ _ Hcell).
    destruct (ToMap (set_Links old links)) as [m|e].
    + cbn [host written]. destruct (SavePluginConfig m (host w)) as [r h1].
      eexists. split; [reflexivity|]. by eapply conf_kept_write.
    + eexists. split; [reflexivity|]. by eapply conf_kept_write.
  - exists w. unfold GetLinks, bind, deref, ret. rewrite Hold.
    split; [done|]. by apply conf_kept_same; [eauto|].
  - exists w. split; [done|]. by apply conf_kept_same; [eauto|].
  - unfold getConfig. unfold bind at 1. unfold ret at 1.
    rewrite (bind_run _ _ _ _ _ (Sorted_run (conf p) w old Hold)).
    eexists. split; [reflexivity|]. by eapply conf_kept_write.
  - unfold run_goroutines.
    match goal with |- context [run_all ?cs ?w1] =>
      destruct (run_all_spec cs w1) as (w' & es & Hgo & Hh & _) end.
    exists w'. split; [done|]. apply conf_kept_same; [eauto|]. by rewrite Hh.
Qed.

(** X9. Once [p.conf] points to a configuration, no sequence of calls of
    [OnConfigurationChange], [SaveLinks], [GetLinks], [getConfig],
    [Sorted] on the plugin's configuration and runs of the goroutines
    panics, whatever the host answers; afterwards [p.conf] still points
    to a configuration and no other cell has changed. *)
Theorem run_calls_safe (p : Plugin) (cs : list Call) (w : World) :
  is_Some (heap w !! conf p) ->
  exists w',
    run_calls p cs w = Some (tt, w')
    /\ is_Some (heap w' !! conf p)
    /\ forall q, q <> conf p -> heap w' !! q = heap w !! q.
Proof.
  revert w. induction cs as [|c rest IH]; intros w Hs.
  - exists w. by repeat split.
  - destruct (run_call_safe p c w Hs) as (w1 & Hrun & Hs1 & Hframe1).
    destruct (IH w1 Hs1) as (w' & Hrest & Hs' & Hframe').
    exists w'. cbn [run_calls]. rewrite (bind_run _ _ _ _ _ Hrun).
    split; [exact Hrest|]. split; [exact Hs'|].
    intros q Hq. by rewrite Hframe', Hframe1.
Qed.

(** ** [SaveLinks] and [ToMap] *)

Lemma round_trip_exact (conf : Config) :
  ValidUTF8 (PluginAdmins conf) ->
  Forall reloads (elems (Links conf)) ->
  exists m, ToMap conf = Ok m /\ Reload m = Some (set_AdminUserIds conf ∅).
Proof.
  intros Hutf Hlinks. unfold ToMap, Marshal.
  assert (Hs : exists jl, marshal_slice (Links conf) = Ok jl
                          /\ reload_slice (Some jl) = Some (Links conf)).
  { destruct (Links conf) as [|ls]; cbn in *.
    - by exists JNull.
    - destruct (marshal_links_reload ls Hlinks) as (js & Hms & Hus).
      exists (JArray js). cbn. by rewrite Hms, Hus. }
  destruct Hs as (jl & Hms & Hrs). rewrite Hms. cbn [UnmarshalMap].
  eexists. split; [reflexivity|]. unfold Reload.
  rewrite lookup_insert_eq.
  rewrite lookup_insert_ne, lookup_insert_eq by done.
  do 2 rewrite lookup_insert_ne by done. rewrite lookup_insert_eq.
  do 3 rewrite lookup_insert_ne by done. rewrite lookup_insert_eq.
  rewrite Hrs. cbn [reload_bool reload_string].
  unfold ValidUTF8 in Hutf. rewrite !Hutf.
  by destruct conf.
Qed.

(** X10. When the stored [PluginAdmins] is valid UTF-8 and each of the
    rules given to [SaveLinks] comes back from its own JSON form,
    [SaveLinks] makes exactly one call to the host, [SavePluginConfig],
    with a map that reloads to the configuration now in memory without
    its admin set; it returns nil exactly when that call returns no
    error. *)
Theorem SaveLinks_saves_what_it_stored
    (p : Plugin) (links : slice Autolink) (w : World) (old : Config) :
  heap w !! conf p = Some old ->
  ValidUTF8 (PluginAdmins old) ->
  Forall reloads (elems links) ->
  exists m appErr r w',
    SaveLinks p links w = Some (r, w')
    /\ trace w' = trace w ++ [EvSavePluginConfig m appErr]
    /\ appErr = (SavePluginConfig m (host w)).1
    /\ (r = None <-> appErr = None)
    /\ Get p w' = Some (set_Links old links, w')
    /\ Reload m = Some (set_AdminUserIds (set_Links old links) ∅).
Proof.
  intros Hold Hutf Hlinks.
  destruct (round_trip_exact (set_Links old links) Hutf Hlinks) as (m & Hm & Hre).
  assert (Hcell : heap (written w (conf p) (set_Links old links)) !! conf p
                  = Some (set_Links old links))
    by (cbn; apply lookup_insert_eq).
  rewrite (SaveLinks_unfold p links w old Hold), (persist_unfold p _ _ Hcell), Hm.
  cbn [host written]. destruct (SavePluginConfig m (host w)) as [appErr h1] eqn:Hsave.
  eexists m, appErr, _, _. split; [reflexivity|].
  cbn [trace]. repeat split; auto.
  - by rewrite Hsave.
  - by destruct appErr.
  - by destruct appErr.
  - apply Get_run. exact Hcell.
Qed.

Lemma marshal_links_error (ls : list Autolink) (e : error) :
  marshal_links ls = Err e <->
  exists good l rest,
    ls = good ++ l :: rest
    /\ Forall (fun g => exists j, MarshalLink g = Ok j) good
    /\ MarshalLink l = Err e.
Proof.
  induction ls as [|a ls IH]; cbn.
  - split; [done|]. intros (good & l & rest & Heq & _). by destruct good.
  - split.
    + destruct (MarshalLink a) as [j|ea] eqn:Ha.
      * destruct (marshal_links ls) as [js|e'] eqn:Hls; [done|].
        intros [= ->]. destruct (proj1 IH eq_refl) as (good & l & rest & -> & Hgood & Hl).
        exists (a :: good), l, rest. repeat split; [|done].
        constructor; eauto.
      * intros [= ->]. exists [], a, ls. by repeat split.
    + intros (good & l & rest & Heq & Hgood & Hl).
      destruct good as [|g good]; cbn in Heq; injection Heq as -> ->.
      * by rewrite Hl.
      * apply Forall_cons in Hgood as [[j Hj] Hgood]. rewrite Hj.
        assert (Hrest : marshal_links (good ++ l :: rest) = Err e)
          by (apply IH; by exists good, l, rest).
        by rewrite Hrest.
Qed.

(** X11. [ToMap] fails exactly when some rule has no JSON form, and then
    with the error of the first such rule; a configuration without rules
    is always encoded. *)
Theorem ToMap_error (conf : Config) (e : error) :
  ToMap conf = Err e <->
  exists good l rest,
    elems (Links conf) = good ++ l :: rest
    /\ Forall (fun g => exists j, MarshalLink g = Ok j) good
    /\ MarshalLink l = Err e.
Proof.
  unfold ToMap, Marshal. destruct (Links conf) as [|ls]; cbn.
  - split; [done|]. intros (good & l & rest & Heq & _). by destruct good.
  - rewrite <- marshal_links_error.
    destruct (marshal_links ls); cbn; split; intros H; try discriminate H;
      injection H as ->; reflexivity.
Qed.

(** ** A raw admin list of blanks *)

Lemma asciiSpace_below_RuneSelf (b : N) :
  asciiSpace b = true -> (RuneSelf <=? b)%N = false.
Proof.
  unfold asciiSpace, RuneSelf. intros H. apply N.leb_gt.
  apply orb_true_iff in H as [H|H].
  - apply andb_true_iff in H as [_ H]. apply N.leb_le in H. lia.
  - apply N.eqb_eq in H. lia.
Qed.

Lemma TrimSpace_blank (s : string) :
  Forall (fun ch => asciiSpace (byte_val ch) = true) (list_ascii_of_string s) ->
  TrimSpace s = EmptyString.
Proof.
  unfold TrimSpace. induction s as [|c t IH]; cbn [list_ascii_of_string TrimSpace_from];
    [done|].
  intros [Hc Ht]%Forall_cons.
  by rewrite (asciiSpace_below_RuneSelf _ Hc), Hc, IH.
Qed.

Lemma Index_blank (s : string) :
  Forall (fun ch => asciiSpace (byte_val ch) = true) (list_ascii_of_string s) ->
  Index s "," = None.
Proof.
  unfold Index. induction s as [|c t IH]; cbn [list_ascii_of_string]; [done|].
  intros [Hc Ht]%Forall_cons. cbn [String.index].
  destruct (String.prefix "," (String c t)) eqn:Hp.
  - apply String.prefix_correct in Hp. cbn in Hp. injection Hp as ->. discriminate Hc.
  - by rewrite (IH Ht).
Qed.

(** X12. A raw admin list that is not empty and holds nothing but ASCII
    white space is not taken for an empty list: [parsePluginAdminList]
    calls [GetUser] once, with the empty id, and either warns about it or
    puts the empty id into the admin set. *)
Theorem parsePluginAdminList_blank_list (conf : Config) (w : World) :
  PluginAdmins conf <> EmptyString ->
  Forall (fun ch => asciiSpace (byte_val ch) = true)
    (list_ascii_of_string (PluginAdmins conf)) ->
  exists ids w' r,
    parsePluginAdminList conf w = Some (set_AdminUserIds conf ids, w')
    /\ r = (GetUser EmptyString (host w)).1
    /\ trace w' = trace w ++ EvGetUser EmptyString r ::
         match r with
         | Some e => [EvLogWarn "Error occurred while verifying userID"
                        [LogString "userID"; LogString EmptyString;
                         LogString "error"; LogErr e]]
         | None => []
         end
    /\ ids = match r with Some _ => ∅ | None => {[ EmptyString ]} end.
Proof.
  intros Hne Hblank.
  unfold parsePluginAdminList. cbn [set_AdminUserIds PluginAdmins AdminUserIds].
  destruct (PluginAdmins conf) as [|c raw] eqn:Hraw; [done|].
  cbn [String.length Nat.eqb].
  assert (Hsplit : Split (String c raw) "," = [String c raw]).
  { unfold Split, Count. cbn [String.length Count_loop].
    by rewrite (Index_blank _ Hblank). }
  rewrite Hsplit. cbn [verifyUserIDs]. rewrite (TrimSpace_blank _ Hblank).
  unfold bind, call, call_, ret.
  destruct (GetUser EmptyString (host w)) as [[e|] h1] eqn:Hget; cbn.
  - eexists ∅, _, (Some e). repeat split; auto; cbn; by rewrite <- app_assoc.
  - eexists _, _, None. repeat split; auto; set_solver.
Qed.

End MoreProofs.

(** ** The command catalog *)

(** X13. The catalog that [getAutoCompleteData] builds has the root
    autolink and under it the commands add, delete, disable, enable,
    list, set, test and help, in this order and without commands of
    their own. The registered command's description names every one of
    them but help; each command but list and help starts with a text
    argument hinted [name]; the field list of set is Template, Pattern,
    WordMatch, ProcessBotPosts, Scope and the filter list of list is
    [name], Template, Pattern. *)
Theorem getAutoCompleteData_shape :
  trigger_of getAutoCompleteData = "autolink"
  /\ map trigger_of (subCommands_of getAutoCompleteData)
     = Split "add, delete, disable, enable, list, set, test" ", " ++ ["help"]
  /\ model.AutoCompleteDesc autolinkCommand
     = ("Available commands: " ++ "add, delete, disable, enable, list, set, test")%string
  /\ model.AutocompleteData_ autolinkCommand = getAutoCompleteData
  /\ Forall (fun d => subCommands_of d = []) (subCommands_of getAutoCompleteData)
  /\ Forall (fun d => trigger_of d = "list" \/ trigger_of d = "help"
                      \/ exists helpText, head (arguments_of d)
                                          = Some (model.TextArgument helpText "[name]" EmptyString))
       (subCommands_of getAutoCompleteData)
  /\ map (fun d => (trigger_of d, list_items d))
       (filter (fun d => list_items d <> []) (subCommands_of getAutoCompleteData))
     = [("list", ["[name]"; "Template"; "Pattern"]);
        ("set", ["Template"; "Pattern"; "WordMatch"; "ProcessBotPosts"; "Scope"])].
Proof.
  repeat split; try reflexivity.
  - repeat constructor.
  - repeat (constructor; [first [by left | by right; left | right; right; eexists; reflexivity]|]).
    constructor.
Qed.

(** * The further properties on the sample host *)

Section MoreOnTheSample.
Local Existing Instance Sample.rules.
Local Existing Instance Sample.api.
Local Existing Instance Sample.sorter.

(** X1 on the sample world whose rules are b, a. *)
Lemma Sorted_in_place_witness :
  heap Sample.w_unsorted !! 1 = Some (Sample.config false EmptyString Sample.unsorted)
  /\ exists w' c',
       Sorted 1 Sample.w_unsorted = Some (1, w')
       /\ heap w' !! 1 = Some c'
       /\ PluginAdmins c' = EmptyString
       /\ Links c' <> nil_slice
       /\ trace w' = [].
Proof.
  split; [reflexivity|].
  destruct (Sorted_in_place 1 Sample.w_unsorted _ eq_refl)
    as (w' & c' & Hrun & Hcell & _ & _ & Hadm & _ & Hnil & _ & _ & Htr & _).
  exists w', c'. repeat split; auto.
Defined.

(** X2 on the sample world, with the insertion sort. *)
Lemma Sorted_orders_by_display_name_witness :
  sorts Sample.sorter
  /\ exists w' c',
       Sorted 1 Sample.w_unsorted = Some (1, w')
       /\ heap w' !! 1 = Some c'
       /\ elems (Links c') ≡ₚ [Sample.rule "b" "x"; Sample.rule "a" "y"]
       /\ adjacent (fun a b => Compare_lt (DisplayName b) (DisplayName a) = false)
            (elems (Links c')).
Proof.
  split; [exact insertionSort_sorts|].
  exact (Sorted_orders_by_display_name 1 Sample.w_unsorted _ insertionSort_sorts eq_refl).
Defined.

(** X3 on the sample plugin whose [conf] is nil. *)
Lemma nil_conf_panics_witness :
  heap Sample.w_ok !! conf Sample.nil_plugin = None
  /\ getConfig Sample.nil_plugin Sample.w_ok = Some (0, Sample.w_ok)
  /\ GetLinks Sample.nil_plugin Sample.w_ok = None
  /\ SaveLinks Sample.nil_plugin Sample.unsorted Sample.w_ok = None
  /\ OnConfigurationChange Sample.nil_plugin Sample.w_ok = None.
Proof.
  split; [reflexivity|].
  destruct (nil_conf_panics Sample.nil_plugin Sample.w_ok eq_refl)
    as (Hget & Hlinks & Hsave & _ & Hchange & _).
  split; [exact Hget|]. split; [exact Hlinks|]. split; [apply Hsave|].
  exact (Hchange Sample.c_new (host Sample.w_ok) eq_refl).
Defined.

(** X5 on the sample host. *)
Lemma getConfig_pointer_is_live_witness :
  exists w',
    bind (getConfig Sample.plugin)
         (fun q => bind (SaveLinks Sample.plugin Sample.unsorted) (fun _ => deref q))
         Sample.w_ok
    = Some (set_Links Sample.c_old Sample.unsorted, w').
Proof.
  exact (proj1 (getConfig_pointer_is_live Sample.plugin Sample.unsorted Sample.w_ok
                  Sample.c_old Sample.c_new (host Sample.w_ok) eq_refl eq_refl)).
Defined.

(** X6 on the sample host: of the three loaded rules the second does not
    compile. *)
Lemma OnConfigurationChange_error_log_witness :
  exists w',
    OnConfigurationChange Sample.plugin Sample.w_ok = Some (None, w')
    /\ filter (fun ev => is_error_log ev = true) (drop 0 (trace w'))
       = [EvLogError "Error creating autolinker"
            [LogString "link"; LogLink (Sample.rule EmptyString "(");
             LogString "error"; LogString "missing closing )"]].
Proof.
  exact (OnConfigurationChange_error_log Sample.plugin Sample.w_ok Sample.c_new
           Sample.c_old (host Sample.w_ok) eq_refl eq_refl).
Defined.

(** X7 on the sample host. *)
Lemma OnConfigurationChange_admins_are_fresh_witness :
  exists w' c',
    OnConfigurationChange Sample.plugin Sample.w_ok = Some (None, w')
    /\ Get Sample.plugin w' = Some (c', w')
    /\ forall x, x ∈ AdminUserIds c' -> x ∈ ["u1"; "u2"; "u3"].
Proof.
  destruct (OnConfigurationChange_admins_are_fresh Sample.plugin Sample.w_ok Sample.c_new
              Sample.c_old (host Sample.w_ok) eq_refl eq_refl)
    as (w' & c' & Hrun & Hget & _ & Hsub).
  exists w', c'. split; [exact Hrun|]. split; [exact Hget|]. exact Hsub.
Defined.

(** X8 on the sample host whose registration fails. *)
Lemma OnConfigurationChange_registers_once_witness :
  exists w' ev,
    bind (OnConfigurationChange Sample.plugin)
         (fun r => bind run_goroutines (fun _ => ret r)) Sample.w_register_error
    = Some (None, w')
    /\ filter (fun ev => is_registration ev = true) (drop 0 (trace w')) = [ev]
    /\ exists r, ev = EvRegisterCommand autolinkCommand r.
Proof.
  destruct (OnConfigurationChange_registers_once Sample.plugin Sample.w_register_error
              Sample.c_new Sample.c_old (host Sample.w_register_error)
              eq_refl eq_refl eq_refl)
    as (w' & ev & Hrun & _ & Hone & _ & Hev).
  exists w', ev. split; [exact Hrun|]. split; [exact Hone|]. exact Hev.
Defined.

(** X9 on the sample host whose save fails. *)
Lemma run_calls_safe_witness :
  is_Some (heap Sample.w_save_error !! conf Sample.plugin)
  /\ exists w',
       run_calls Sample.plugin
         [CallOnConfigurationChange; CallSaveLinks Sample.unsorted; CallSorted;
          CallGoroutines; CallGetLinks; CallSaveLinks Sample.unencodable]
         Sample.w_save_error
       = Some (tt, w')
       /\ is_Some (heap w' !! conf Sample.plugin).
Proof.
  assert (H : is_Some (heap Sample.w_save_error !! conf Sample.plugin))
    by (eexists; reflexivity).
  split; [exact H|].
  destruct (run_calls_safe Sample.plugin
              [CallOnConfigurationChange; CallSaveLinks Sample.unsorted; CallSorted;
               CallGoroutines; CallGetLinks; CallSaveLinks Sample.unencodable]
              Sample.w_save_error H) as (w' & Hrun & Hs & _).
  exists w'. split; [exact Hrun | exact Hs].
Defined.

(** X10 on the sample host whose save fails. *)
Lemma SaveLinks_saves_what_it_stored_witness :
  ValidUTF8 (PluginAdmins Sample.c_old)
  /\ Forall reloads (elems Sample.unsorted)
  /\ exists m r w',
       SaveLinks Sample.plugin Sample.unsorted Sample.w_save_error = Some (r, w')
       /\ trace w' = [EvSavePluginConfig m (Some Sample.save_failed)]
       /\ Reload m = Some (set_AdminUserIds (set_Links Sample.c_old Sample.unsorted) ∅).
Proof.
  assert (Hutf : ValidUTF8 (PluginAdmins Sample.c_old)) by reflexivity.
  assert (Hl : Forall reloads (elems Sample.unsorted)).
  { repeat constructor; eexists; split; reflexivity. }
  split; [exact Hutf|]. split; [exact Hl|].
  destruct (SaveLinks_saves_what_it_stored Sample.plugin Sample.unsorted
              Sample.w_save_error Sample.c_old eq_refl Hutf Hl)
    as (m & appErr & r & w' & Hrun & Htr & Happ & _ & _ & Hre).
  exists m, r, w'. split; [exact Hrun|]. split; [|exact Hre].
  rewrite Htr, Happ. reflexivity.
Defined.

(** X11 on a sample configuration whose only rule has no JSON form. *)
Lemma ToMap_error_witness :
  ToMap (set_Links Sample.c_old Sample.unencodable)
  = Err (NewError "json: unsupported value").
Proof.
  apply (proj2 (ToMap_error (set_Links Sample.c_old Sample.unencodable)
                  (NewError "json: unsupported value"))).
  exists [], (Sample.rule "!" "x"), []. split; [reflexivity|]. split; [constructor | reflexivity].
Defined.

(** X12 on the sample host, which does not know the empty id. *)
Lemma parsePluginAdminList_blank_list_witness :
  exists w',
    parsePluginAdminList Sample.c_blank Sample.w_ok
    = Some (set_AdminUserIds Sample.c_blank ∅, w')
    /\ lookups (trace w') = [EmptyString].
Proof.
  destruct (parsePluginAdminList_blank_list Sample.c_blank Sample.w_ok)
    as (ids & w' & r & Hrun & Hr & Htr & Hids).
  - discriminate.
  - repeat constructor.
  - cbn in Hr. subst r. subst ids. exists w'. split; [exact Hrun|].
    by rewrite Htr.
Defined.

End MoreOnTheSample.

(** * A reader and a change at the same time *)

Section Readers.
Context {ops : LinkOps} {api : PluginAPI}.

(** A reader that reads [PluginAdmins] through the pointer from
    [getConfig], then [Links] through the same pointer after a whole
    successful [OnConfigurationChange] has run, holds the old
    [PluginAdmins] and the new [Links]. *)
Lemma read_across_change (p : Plugin) (w : World) (c old : Config) (h' : Host) :
  LoadPluginConfiguration (host w) = (Ok c, h') ->
  heap w !! conf p = Some old ->
  exists w' c',
    read_across p (OnConfigurationChange p) w = Some ((PluginAdmins old, Links c'), w')
    /\ Get p w' = Some (c', w')
    /\ PluginAdmins c' = PluginAdmins c
    /\ elems (Links c') = map (fun l => (Compile l).1) (elems (Links c)).
Proof.
  intros Hload Hold.
  destruct (OnConfigurationChange_run p w c old h' Hload Hold)
    as (links & ids & w3 & es1 & es2 & Hrun & Hel & _).
  cbn zeta in Hrun.
  eexists _, (set_AdminUserIds (set_Links c links) ids).
  split; [|split; [|split]].
  - unfold read_across, getConfig. unfold bind at 1. unfold ret at 1.
    unfold bind at 1. unfold deref at 1. rewrite Hold.
    rewrite (bind_run _ _ _ _ _ Hrun).
    unfold bind, deref, ret. cbn [heap]. rewrite lookup_insert_eq. reflexivity.
  - apply Get_run. cbn. apply lookup_insert_eq.
  - reflexivity.
  - exact Hel.
Qed.

End Readers.

Section ReadersOnTheSample.
Local Existing Instance Sample.rules.
Local Existing Instance Sample.api.

(** C9 fails on the code: [getConfig] takes the read lock only to copy
    the pointer [p.conf], and [UpdateConfig] overwrites the configuration
    behind that pointer in place. On the sample host a reader calls
    [getConfig], reads [PluginAdmins] through the pointer, a whole
    [OnConfigurationChange] runs, and the reader reads [Links] through the
    same pointer: it holds the admins of the old configuration, u9, and
    the three rules of the new one, a pair that neither the old nor the
    new configuration has. *)
Theorem getConfig_reader_sees_a_mix :
  option_map fst
    (read_across Sample.plugin (OnConfigurationChange Sample.plugin) Sample.w_ok)
  = Some (PluginAdmins Sample.c_old, Links Sample.c_stored)
  /\ heap Sample.w_ok !! conf Sample.plugin = Some Sample.c_old
  /\ option_map (fun r => heap r.2 !! conf Sample.plugin)
       (OnConfigurationChange Sample.plugin Sample.w_ok)
     = Some (Some Sample.c_stored)
  /\ PluginAdmins Sample.c_old <> PluginAdmins Sample.c_stored
  /\ Links Sample.c_old <> Links Sample.c_stored.
Proof. repeat split; try reflexivity; discriminate. Qed.

End ReadersOnTheSample.
